(** * The items and notes services (main.py, notes.py)

    A shallow embedding of the two FastAPI services and the proofs of their
    CRUD and filtering contract.  Each service keeps a module-level list of
    dicts and a module-level counter [next_id]; a route handler reads and
    mutates them and either returns a value or raises [HTTPException].

    Modelling choices, all local to this file:
    - the dicts built by [create_item] / [create_note] always carry the same
      five keys, so they are records ([Item], [Note]);
    - Python [int] is [Z], [float] is a primitive float, [str] is [string],
      [datetime] is a timestamp in [Z]; [Optional[T]] is [option T];
    - [datetime.now()] is an input of the handler that calls it;
    - a handler is a state transformer that returns an [outcome]: a value,
      or the exception it raised, next to the state it leaves behind;
    - [str.lower] is a parameter [lower : string -> string] of the notes
      service (the Unicode case tables are not part of the repository);
      [ascii_lower] is the instance used on concrete ASCII inputs;
    - requests are served one at a time, each handler running to its end;
      the body and the path id arrive validated, and the serialisation of
      the response is left out; the routes [/] and [/health], which do not
      touch the store, are in [Info] and not among the requests of a run. *)

From Stdlib Require Import ZArith Ascii.
From Stdlib Require Import Floats.PrimFloat.
From stdpp Require Import base option list sorting strings.

Local Open Scope Z_scope.

(** ** Python values and control flow *)

Module Py.

(** What a handler can raise: the [HTTPException] of the routes, and the
    [IndexError] of a list subscript or [pop] that is out of range. *)
Inductive exn : Type :=
| HTTPException (status_code : Z) (detail : string)
| IndexError.

Inductive outcome (A : Type) : Type :=
| Returns (a : A)
| Raises (e : exn).
Arguments Returns {A} a.
Arguments Raises {A} e.

(** A handler over the module state [S]. *)
Definition handler (S A : Type) : Type := S → outcome A * S.

Definition ret {S A} (a : A) : handler S A := λ s, (Returns a, s).
Definition raise {S A} (e : exn) : handler S A := λ s, (Raises e, s).
Definition bind {S A B} (m : handler S A) (k : A → handler S B) : handler S B :=
  λ s, match m s with
       | (Returns a, s') => k a s'
       | (Raises e, s') => (Raises e, s')
       end.
Definition get {S} : handler S S := λ s, (Returns s, s).
Definition put {S} (s : S) : handler S unit := λ _, (Returns tt, s).

Global Instance handler_ret {S} : MRet (handler S) := @ret S.
Global Instance handler_bind {S} : MBind (handler S) := λ A B k m, bind m k.

(** [if o is not None: body(o)]. *)
Definition when_not_None {S A} (o : option A) (body : A → handler S unit)
  : handler S unit :=
  match o with
  | Some v => body v
  | None => ret tt
  end.

(** [next((x for x in l if P x), None)]: the first element that satisfies
    [P], scanning from the left. *)
Definition next_elem {A} (P : A → Prop) `{∀ x, Decision (P x)} (l : list A)
  : option A := snd <$> list_find P l.

(** [next((i for i, x in enumerate(l) if P x), None)]. *)
Definition next_index {A} (P : A → Prop) `{∀ x, Decision (P x)} (l : list A)
  : option nat := fst <$> list_find P l.

(** [l[i]] for an index [i >= 0]. *)
Definition subscript {S A} (l : list A) (i : nat) : handler S A :=
  match l !! i with
  | Some x => ret x
  | None => raise IndexError
  end.

(** [l[i] = f(l[i])] as a pure list operation: the mutation of the dict
    stored at index [i]. *)
Definition store_at {A} (l : list A) (i : nat) (f : A → A) : option (list A) :=
  match l !! i with
  | Some x => Some (<[i := f x]> l)
  | None => None
  end.

(** [l.pop(i)] for [i >= 0]: the popped element and the remaining list. *)
Definition pop {A} (l : list A) (i : nat) : option (A * list A) :=
  match l !! i with
  | Some x => Some (x, delete i l)
  | None => None
  end.

End Py.
Import Py.

(** ** main.py: the items service *)

Module Main.

Definition datetime := Z.

(** The dict built by [create_item]. *)
Record Item : Type := mkItem {
  id : Z;
  name : string;
  description : option string;
  price : float;
  created_at : datetime;
}.

Record ItemCreate : Type := mkItemCreate {
  ic_name : string;
  ic_description : option string;
  ic_price : float;
}.

Record ItemUpdate : Type := mkItemUpdate {
  iu_name : option string;
  iu_description : option string;
  iu_price : option float;
}.

(** The module globals [items_db] and [next_id]. *)
Record state : Type := mkState {
  items_db : list Item;
  next_id : Z;
}.

Definition init : state := {| items_db := []; next_id := 1 |}.

Definition set_name (v : string) (it : Item) : Item :=
  {| id := id it; name := v; description := description it;
     price := price it; created_at := created_at it |}.
Definition set_description (v : string) (it : Item) : Item :=
  {| id := id it; name := name it; description := Some v;
     price := price it; created_at := created_at it |}.
Definition set_price (v : float) (it : Item) : Item :=
  {| id := id it; name := name it; description := description it;
     price := v; created_at := created_at it |}.

(** [items_db[i][key] = v]. *)
Definition setitem (i : nat) (f : Item → Item) : handler state unit :=
  s ← get;
  match store_at (items_db s) i f with
  | Some db => put {| items_db := db; next_id := next_id s |}
  | None => raise IndexError
  end.

Definition get_items : handler state (list Item) :=
  s ← get; mret (items_db s).

Definition get_item (item_id : Z) : handler state Item :=
  s ← get;
  match next_elem (λ item, id item = item_id) (items_db s) with
  | None => raise (HTTPException 404 "Item not found")
  | Some item => mret item
  end.

Definition create_item (item : ItemCreate) (now : datetime)
  : handler state Item :=
  s ← get;
  let new_item :=
    {| id := next_id s; name := ic_name item;
       description := ic_description item; price := ic_price item;
       created_at := now |} in
  put {| items_db := items_db s ++ [new_item]; next_id := next_id s |};;
  s ← get;
  put {| items_db := items_db s; next_id := next_id s + 1 |};;
  mret new_item.

Definition update_item (item_id : Z) (item : ItemUpdate)
  : handler state Item :=
  s ← get;
  match next_index (λ it, id it = item_id) (items_db s) with
  | None => raise (HTTPException 404 "Item not found")
  | Some item_index =>
      when_not_None (iu_name item) (λ v, setitem item_index (set_name v));;
      when_not_None (iu_description item)
        (λ v, setitem item_index (set_description v));;
      when_not_None (iu_price item) (λ v, setitem item_index (set_price v));;
      s ← get;
      subscript (items_db s) item_index
  end.

(** The message of a successful delete. *)
Definition deleted_message (deleted_item : Item) : string :=
  "Item '" +:+ name deleted_item +:+ "' deleted successfully".

Definition delete_item (item_id : Z) : handler state string :=
  s ← get;
  match next_index (λ it, id it = item_id) (items_db s) with
  | None => raise (HTTPException 404 "Item not found")
  | Some item_index =>
      match pop (items_db s) item_index with
      | None => raise IndexError
      | Some (deleted_item, db) =>
          put {| items_db := db; next_id := next_id s |};;
          mret (deleted_message deleted_item)
      end
  end.

(** *** The routes of the store, and a run of requests

    A request carries what the route reads from outside: the path id, the
    validated body and, for a create, the clock reading of [datetime.now()]. *)

Inductive request : Type :=
| GET_items
| GET_item (item_id : Z)
| POST_items (item : ItemCreate) (now : datetime)
| PUT_item (item_id : Z) (item : ItemUpdate)
| DELETE_item (item_id : Z).

Inductive response : Type :=
| item_list (items : list Item)
| one_item (item : Item)
| message (text : string).

Definition serve (r : request) : handler state response :=
  match r with
  | GET_items => items ← get_items; mret (item_list items)
  | GET_item item_id => item ← get_item item_id; mret (one_item item)
  | POST_items item now => item ← create_item item now; mret (one_item item)
  | PUT_item item_id item =>
      item ← update_item item_id item; mret (one_item item)
  | DELETE_item item_id => text ← delete_item item_id; mret (message text)
  end.

(** The requests are served one after the other; the trace pairs each
    request with its outcome. *)
Fixpoint run (reqs : list request) (s : state)
  : list (request * outcome response) * state :=
  match reqs with
  | [] => ([], s)
  | r :: reqs' =>
      let '(o, s') := serve r s in
      let '(t, s'') := run reqs' s' in
      ((r, o) :: t, s'')
  end.

Definition is_create (r : request) : bool :=
  match r with
  | POST_items _ _ => true
  | _ => false
  end.

(** The id a create handed out, read off its response. *)
Definition created_id (e : request * outcome response) : option Z :=
  match e with
  | (POST_items _ _, Returns (one_item it)) => Some (id it)
  | _ => None
  end.

Definition created_ids (t : list (request * outcome response)) : list Z :=
  omap created_id t.

Definition ids (s : state) : list Z := id <$> items_db s.

(** The states the service can be in: those a run from [init] ends in. *)
Definition reachable (s : state) : Prop := ∃ reqs, (run reqs init).2 = s.

(** The record that the three conditional assignments of [update_item]
    leave in place of [it]. *)
Definition merged (item : ItemUpdate) (it : Item) : Item :=
  {| id := id it;
     name := default (name it) (iu_name item);
     description :=
       match iu_description item with
       | Some v => Some v
       | None => description it
       end;
     price := default (price it) (iu_price item);
     created_at := created_at it |}.

(** The outcome of each route, case by case; [serve] computes it
    (lemma [items_serve_step] below). *)
Inductive step (s : state) : request → outcome response → state → Prop :=
| step_list :
    step s GET_items (Returns (item_list (items_db s))) s
| step_get item_id i it :
    list_find (λ it, id it = item_id) (items_db s) = Some (i, it) →
    step s (GET_item item_id) (Returns (one_item it)) s
| step_get_missing item_id :
    list_find (λ it, id it = item_id) (items_db s) = None →
    step s (GET_item item_id)
      (Raises (HTTPException 404 "Item not found")) s
| step_create item now :
    let new_item :=
      mkItem (next_id s) (ic_name item) (ic_description item)
        (ic_price item) now in
    step s (POST_items item now) (Returns (one_item new_item))
      (mkState (items_db s ++ [new_item]) (next_id s + 1))
| step_update item_id item i it :
    list_find (λ it, id it = item_id) (items_db s) = Some (i, it) →
    step s (PUT_item item_id item) (Returns (one_item (merged item it)))
      (mkState (<[i := merged item it]> (items_db s)) (next_id s))
| step_update_missing item_id item :
    list_find (λ it, id it = item_id) (items_db s) = None →
    step s (PUT_item item_id item)
      (Raises (HTTPException 404 "Item not found")) s
| step_delete item_id i it :
    list_find (λ it, id it = item_id) (items_db s) = Some (i, it) →
    step s (DELETE_item item_id) (Returns (message (deleted_message it)))
      (mkState (delete i (items_db s)) (next_id s))
| step_delete_missing item_id :
    list_find (λ it, id it = item_id) (items_db s) = None →
    step s (DELETE_item item_id)
      (Raises (HTTPException 404 "Item not found")) s.

End Main.

(** ** notes.py: the notes service *)

Module Notes.

Definition datetime := Z.

(** The dict built by [create_note]. *)
Record Note : Type := mkNote {
  id : Z;
  title : string;
  content : string;
  tags : list string;
  created_at : datetime;
}.

Record NoteCreate : Type := mkNoteCreate {
  nc_title : string;
  nc_content : string;
  nc_tags : option (list string);
}.

Record NoteUpdate : Type := mkNoteUpdate {
  nu_title : option string;
  nu_content : option string;
  nu_tags : option (list string);
}.

(** The module globals [notes_db] and [next_id]. *)
Record state : Type := mkState {
  notes_db : list Note;
  next_id : Z;
}.

Definition init : state := {| notes_db := []; next_id := 1 |}.

Definition set_title (v : string) (n : Note) : Note :=
  {| id := id n; title := v; content := content n; tags := tags n;
     created_at := created_at n |}.
Definition set_content (v : string) (n : Note) : Note :=
  {| id := id n; title := title n; content := v; tags := tags n;
     created_at := created_at n |}.
Definition set_tags (v : list string) (n : Note) : Note :=
  {| id := id n; title := title n; content := content n; tags := v;
     created_at := created_at n |}.

(** [if o is not None: n[key] = o], on the dict [n]. *)
Definition assign_if_not_None {A} (o : option A) (set : A → Note → Note)
    (n : Note) : Note :=
  match o with
  | Some v => set v n
  | None => n
  end.

(** [x or []] on an optional list: [x] when it is a non-empty list. *)
Definition or_empty (x : option (list string)) : list string :=
  match x with
  | Some (t :: l) => t :: l
  | Some [] | None => []
  end.

(** The truth value of a [str]. *)
Definition truthy (q : string) : bool :=
  match q with
  | EmptyString => false
  | String _ _ => true
  end.

(** [p] is an initial segment of [s]. *)
Fixpoint starts_with (p s : string) : bool :=
  match p, s with
  | EmptyString, _ => true
  | String _ _, EmptyString => false
  | String a p', String b s' => bool_decide (a = b) && starts_with p' s'
  end.

(** [x in s] on two [str]: [x] occurs in [s] as a contiguous substring. *)
Fixpoint str_in (x s : string) : bool :=
  starts_with x s ||
  match s with
  | EmptyString => false
  | String _ s' => str_in x s'
  end.

(** [x in l] on a list of [str]. *)
Definition list_in (x : string) (l : list string) : bool :=
  bool_decide (x ∈ l).

(** Lower-casing of the ASCII letters, every other character kept. *)
Definition ascii_lower_char (c : ascii) : ascii :=
  let n := N_of_ascii c in
  if ((65 <=? n) && (n <=? 90))%N then ascii_of_N (n + 32) else c.

Fixpoint ascii_lower (s : string) : string :=
  match s with
  | EmptyString => EmptyString
  | String c s' => String (ascii_lower_char c) (ascii_lower s')
  end.

Definition create_note (note : NoteCreate) (now : datetime)
  : handler state Note :=
  s ← get;
  let new_note :=
    {| id := next_id s; title := nc_title note; content := nc_content note;
       tags := or_empty (nc_tags note); created_at := now |} in
  put {| notes_db := notes_db s ++ [new_note]; next_id := next_id s |};;
  s ← get;
  put {| notes_db := notes_db s; next_id := next_id s + 1 |};;
  mret new_note.

Section Filter.

(** [str.lower]. *)
Variable lower : string → string.

(** The condition of the first comprehension of [get_notes]. *)
Definition search_matches (search : string) (n : Note) : bool :=
  str_in (lower search) (lower (title n))
  || str_in (lower search) (lower (content n)).

(** The condition of the second comprehension of [get_notes]. *)
Definition tag_matches (tag : string) (n : Note) : bool :=
  list_in (lower tag) (lower <$> tags n).

(** The [if search:] statement of [get_notes]. *)
Definition apply_search (search : option string) (results : list Note)
  : list Note :=
  match search with
  | Some search =>
      if truthy search then List.filter (search_matches search) results
      else results
  | None => results
  end.

(** The [if tag:] statement of [get_notes]. *)
Definition apply_tag (tag : option string) (results : list Note)
  : list Note :=
  match tag with
  | Some tag =>
      if truthy tag then List.filter (tag_matches tag) results
      else results
  | None => results
  end.

Definition get_notes (search tag : option string)
  : handler state (list Note) :=
  s ← get;
  let results := notes_db s in
  let results := apply_search search results in
  let results := apply_tag tag results in
  mret results.

End Filter.

(** [if not note] on the result of [next(..., None)]: a stored dict has
    five keys and is true, so the test is [note is None]. *)
Definition get_note (note_id : Z) : handler state Note :=
  s ← get;
  match next_elem (λ n, id n = note_id) (notes_db s) with
  | None => raise (HTTPException 404 "Note not found")
  | Some note => mret note
  end.

(** The [for n in notes_db] loop of [update_note] over the remaining
    elements: [n] is the dict stored in the list, so the assignments change
    the list element in place; the result is the returned dict and the
    list after the loop, or [None] when the loop falls through. *)
Fixpoint update_note_loop (note_id : Z) (note : NoteUpdate) (db : list Note)
  : option (Note * list Note) :=
  match db with
  | [] => None
  | n :: rest =>
      if decide (id n = note_id) then
        let n := assign_if_not_None (nu_title note) set_title n in
        let n := assign_if_not_None (nu_content note) set_content n in
        let n := assign_if_not_None (nu_tags note) set_tags n in
        Some (n, n :: rest)
      else
        prod_map (λ r, r) (λ rest', n :: rest') <$>
          update_note_loop note_id note rest
  end.

Definition update_note (note_id : Z) (note : NoteUpdate)
  : handler state Note :=
  s ← get;
  match update_note_loop note_id note (notes_db s) with
  | Some (n, db) =>
      put {| notes_db := db; next_id := next_id s |};;
      mret n
  | None => raise (HTTPException 404 "Note not found")
  end.

(** The [for i, n in enumerate(notes_db)] loop of [delete_note], from
    index [i] on. *)
Fixpoint delete_note_loop (note_id : Z) (i : nat) (rest : list Note)
  : handler state string :=
  match rest with
  | [] => raise (HTTPException 404 "Note not found")
  | n :: rest' =>
      if decide (id n = note_id) then
        s ← get;
        match pop (notes_db s) i with
        | None => raise IndexError
        | Some (_, db) =>
            put {| notes_db := db; next_id := next_id s |};;
            mret "Note deleted successfully"
        end
      else delete_note_loop note_id (S i) rest'
  end.

Definition delete_note (note_id : Z) : handler state string :=
  s ← get;
  delete_note_loop note_id 0%nat (notes_db s).

(** *** The routes of the store, and a run of requests *)

Inductive request : Type :=
| POST_notes (note : NoteCreate) (now : datetime)
| GET_notes (search tag : option string)
| GET_note (note_id : Z)
| PUT_note (note_id : Z) (note : NoteUpdate)
| DELETE_note (note_id : Z).

Inductive response : Type :=
| note_list (notes : list Note)
| one_note (note : Note)
| message (text : string).

Section Router.

Variable lower : string → string.

Definition serve (r : request) : handler state response :=
  match r with
  | POST_notes note now => note ← create_note note now; mret (one_note note)
  | GET_notes search tag =>
      notes ← get_notes lower search tag; mret (note_list notes)
  | GET_note note_id => note ← get_note note_id; mret (one_note note)
  | PUT_note note_id note =>
      note ← update_note note_id note; mret (one_note note)
  | DELETE_note note_id => text ← delete_note note_id; mret (message text)
  end.

Fixpoint run (reqs : list request) (s : state)
  : list (request * outcome response) * state :=
  match reqs with
  | [] => ([], s)
  | r :: reqs' =>
      let '(o, s') := serve r s in
      let '(t, s'') := run reqs' s' in
      ((r, o) :: t, s'')
  end.

(** The states the service can be in: those a run from [init] ends in. *)
Definition reachable (s : state) : Prop := ∃ reqs, (run reqs init).2 = s.

End Router.

Definition is_create (r : request) : bool :=
  match r with
  | POST_notes _ _ => true
  | _ => false
  end.

(** The id a create handed out, read off its response. *)
Definition created_id (e : request * outcome response) : option Z :=
  match e with
  | (POST_notes _ _, Returns (one_note n)) => Some (id n)
  | _ => None
  end.

Definition created_ids (t : list (request * outcome response)) : list Z :=
  omap created_id t.

Definition ids (s : state) : list Z := id <$> notes_db s.

(** The dict that the three conditional assignments of [update_note] leave
    in place of [n]. *)
Definition merged (note : NoteUpdate) (n : Note) : Note :=
  {| id := id n;
     title := default (title n) (nu_title note);
     content := default (content n) (nu_content note);
     tags := default (tags n) (nu_tags note);
     created_at := created_at n |}.

(** The outcome of each route, case by case; [serve] computes it
    (lemma [notes_serve_step] below). *)
Inductive step (lower : string → string) (s : state)
  : request → outcome response → state → Prop :=
| step_create note now :
    let new_note :=
      mkNote (next_id s) (nc_title note) (nc_content note)
        (or_empty (nc_tags note)) now in
    step lower s (POST_notes note now) (Returns (one_note new_note))
      (mkState (notes_db s ++ [new_note]) (next_id s + 1))
| step_list search tag :
    step lower s (GET_notes search tag)
      (Returns (note_list
         (apply_tag lower tag (apply_search lower search (notes_db s))))) s
| step_get note_id i n :
    list_find (λ n, id n = note_id) (notes_db s) = Some (i, n) →
    step lower s (GET_note note_id) (Returns (one_note n)) s
| step_get_missing note_id :
    list_find (λ n, id n = note_id) (notes_db s) = None →
    step lower s (GET_note note_id)
      (Raises (HTTPException 404 "Note not found")) s
| step_update note_id note i n :
    list_find (λ n, id n = note_id) (notes_db s) = Some (i, n) →
    step lower s (PUT_note note_id note)
      (Returns (one_note (merged note n)))
      (mkState (<[i := merged note n]> (notes_db s)) (next_id s))
| step_update_missing note_id note :
    list_find (λ n, id n = note_id) (notes_db s) = None →
    step lower s (PUT_note note_id note)
      (Raises (HTTPException 404 "Note not found")) s
| step_delete note_id i n :
    list_find (λ n, id n = note_id) (notes_db s) = Some (i, n) →
    step lower s (DELETE_note note_id)
      (Returns (message "Note deleted successfully"))
      (mkState (delete i (notes_db s)) (next_id s))
| step_delete_missing note_id :
    list_find (λ n, id n = note_id) (notes_db s) = None →
    step lower s (DELETE_note note_id)
      (Raises (HTTPException 404 "Note not found")) s.

End Notes.

(** ** The store invariant *)

Module Store.

(** The ids in the collection are pairwise different and all below the
    counter, and the counter is positive. *)
Definition store_ok (keys : list Z) (nid : Z) : Prop :=
  NoDup keys ∧ Forall (λ k, 0 < k < nid) keys ∧ 0 < nid.

End Store.

(** ** Sample stores *)

Module Samples.

(** [POST /items {"name": "Widget", "price": 9.99}] at clock reading 0;
    the price is 9.99 as a binary64. *)
Definition widget : Main.ItemCreate :=
  Main.mkItemCreate "Widget" None 0x1.3fae147ae147bp+3%float.

Definition gadget : Main.ItemCreate :=
  Main.mkItemCreate "Gadget" (Some "a small gadget") 12.5%float.

Definition two_items : Main.state :=
  (Main.run [Main.POST_items widget 0; Main.POST_items gadget 1] Main.init).2.

Definition widget_item : Main.Item :=
  Main.mkItem 1 "Widget" None 0x1.3fae147ae147bp+3%float 0.

Definition meeting : Notes.NoteCreate :=
  Notes.mkNoteCreate "team meeting notes" "agenda for Monday"
    (Some ["work"; "urgent"]).

Definition essay : Notes.NoteCreate :=
  Notes.mkNoteCreate "essay" "due on Friday" (Some ["homework"]).

Definition scratch : Notes.NoteCreate :=
  Notes.mkNoteCreate "apple" "pie" None.

Definition meeting_note : Notes.Note :=
  Notes.mkNote 1 "team meeting notes" "agenda for Monday" ["work"; "urgent"] 0.

Definition essay_note : Notes.Note :=
  Notes.mkNote 2 "essay" "due on Friday" ["homework"] 1.

Definition scratch_note : Notes.Note :=
  Notes.mkNote 3 "apple" "pie" [] 2.

Definition three_notes : Notes.state :=
  (Notes.run Notes.ascii_lower
     [Notes.POST_notes meeting 0; Notes.POST_notes essay 1;
      Notes.POST_notes scratch 2] Notes.init).2.

End Samples.

(** ** Routes that do not touch the store *)

Module Info.

(** [root] of main.py: the dict has the one key ["message"]. *)
Definition main_root {S} : handler S string :=
  mret "Welcome to FastAPI Application".

(** The dict [health_check] returns. *)
Record Health : Type := mkHealth {
  status : string;
  timestamp : Main.datetime;
}.

Definition health_check {S} (now : Main.datetime) : handler S Health :=
  mret {| status := "healthy"; timestamp := now |}.

(** [root] of notes.py; the message ends in the rocket sign, four bytes
    of UTF-8. *)
Definition notes_root {S} : handler S string :=
  mret "Notes API running 🚀".

End Info.

(** ** Payloads in sequence, and the deletes of a run *)

Module Compose.

(** [second] laid over [first]: field by field, what [second] gives, and
    where it gives nothing what [first] gives. *)
Definition overlay {A} (first second : option A) : option A :=
  match second with
  | Some v => Some v
  | None => first
  end.

Definition item_updates (first second : Main.ItemUpdate) : Main.ItemUpdate :=
  {| Main.iu_name := overlay (Main.iu_name first) (Main.iu_name second);
     Main.iu_description :=
       overlay (Main.iu_description first) (Main.iu_description second);
     Main.iu_price := overlay (Main.iu_price first) (Main.iu_price second) |}.

Definition note_updates (first second : Notes.NoteUpdate) : Notes.NoteUpdate :=
  {| Notes.nu_title := overlay (Notes.nu_title first) (Notes.nu_title second);
     Notes.nu_content :=
       overlay (Notes.nu_content first) (Notes.nu_content second);
     Notes.nu_tags := overlay (Notes.nu_tags first) (Notes.nu_tags second) |}.

(** A delete of the trace that returned its message. *)
Definition item_deleted (e : Main.request * outcome Main.response) : bool :=
  match e with
  | (Main.DELETE_item _, Returns _) => true
  | _ => false
  end.

Definition note_deleted (e : Notes.request * outcome Notes.response) : bool :=
  match e with
  | (Notes.DELETE_note _, Returns _) => true
  | _ => false
  end.

(** What the [if search:] statement of [get_notes] asks of a note: nothing
    when [search] is absent or empty. *)
Definition search_keeps (lower : string → string) (search : option string)
    (n : Notes.Note) : bool :=
  match search with
  | Some q => if Notes.truthy q then Notes.search_matches lower q n else true
  | None => true
  end.

(** What the [if tag:] statement of [get_notes] asks of a note. *)
Definition tag_keeps (lower : string → string) (tag : option string)
    (n : Notes.Note) : bool :=
  match tag with
  | Some t => if Notes.truthy t then Notes.tag_matches lower t n else true
  | None => true
  end.

(** The ids of the collection increase along it and lie between 1 and
    the counter. *)
Definition store_sorted (keys : list Z) (nid : Z) : Prop :=
  StronglySorted Z.lt keys ∧ Forall (λ k, 0 < k < nid) keys ∧ 0 < nid.

End Compose.

(** ** The handler monad *)

Lemma bind_mret {S A B} (m : handler S A) (k : A → B) (s : S) :
  (x ← m; mret (k x)) s =
  match m s with
  | (Returns x, s') => (Returns (k x), s')
  | (Raises e, s') => (Raises e, s')
  end.
Proof. reflexivity. Qed.

(** [default old o] is the value of [o] when it has one, [old] otherwise. *)
Lemma default_is {A} (o : option A) (old v : A) :
  default old o = v ↔ o = Some v ∨ (o = None ∧ old = v).
Proof. destruct o; cbn; intuition congruence. Qed.

(** ** Lists of records searched by id *)

Module Keyed.
Import Store.

Section Keyed.
Context {A : Type} (key : A → Z).
Implicit Types (l : list A) (k : Z) (x y : A).

Lemma find_missing l k :
  list_find (λ x, key x = k) l = None ↔ k ∉ key <$> l.
Proof.
  rewrite list_find_None, Forall_forall, list_elem_of_fmap. split.
  - intros Hl (x & -> & Hx). by apply (Hl x).
  - intros Hk x Hx Hkx. apply Hk. by exists x.
Qed.

Lemma find_present l k :
  k ∈ key <$> l → ∃ i x, list_find (λ x, key x = k) l = Some (i, x).
Proof.
  intros Hk. destruct (list_find _ l) as [[i x]|] eqn:Hf; [eauto|].
  by apply find_missing in Hf.
Qed.

Lemma find_at l k i x :
  list_find (λ x, key x = k) l = Some (i, x) → l !! i = Some x ∧ key x = k.
Proof. rewrite list_find_Some. by intros (? & ? & _). Qed.

Lemma find_in_keys l k i x :
  list_find (λ x, key x = k) l = Some (i, x) → k ∈ key <$> l.
Proof.
  intros [Hi <-]%find_at. apply list_elem_of_fmap_2.
  by eapply list_elem_of_lookup_2.
Qed.

Lemma keys_insert l i x y :
  l !! i = Some x → key y = key x → key <$> <[i := y]> l = key <$> l.
Proof.
  intros Hi Hy. rewrite list_fmap_insert, Hy.
  apply list_insert_id. by rewrite list_lookup_fmap, Hi.
Qed.

Lemma filter_absent l k :
  k ∉ key <$> l → filter (λ y, key y ≠ k) l = l.
Proof.
  induction l as [|y l IH]; [done|]. cbn. intros Hk.
  apply not_elem_of_cons in Hk as [Hy Hk].
  destruct (decide (key y ≠ k)) as [_|Heq]; [|by destruct Heq].
  f_equal. by apply IH.
Qed.

(** Removing the first record with id [k] removes every record with id
    [k] when the ids are pairwise different, and keeps the others in
    their order. *)
Lemma delete_found l k i x :
  NoDup (key <$> l) →
  list_find (λ x, key x = k) l = Some (i, x) →
  delete i l = filter (λ y, key y ≠ k) l.
Proof.
  revert i. induction l as [|y l IH]; intros i Hnd; [done|].
  cbn in Hnd. apply NoDup_cons in Hnd as [Hy Hnd]. cbn.
  destruct (decide (key y = k)) as [Hk|Hk].
  - intros [= <- <-]. cbn. destruct (decide (key y ≠ k)); [done|].
    symmetry. apply filter_absent. by rewrite <- Hk.
  - destruct (list_find _ l) as [[j z]|] eqn:Hf; [|done].
    cbn. intros [= <- <-]. cbn. destruct (decide (key y ≠ k)); [|done].
    f_equal. by apply IH.
Qed.

Lemma deleted_absent l k i x :
  NoDup (key <$> l) →
  list_find (λ x, key x = k) l = Some (i, x) →
  k ∉ key <$> delete i l.
Proof.
  intros Hnd Hf. rewrite (delete_found _ _ _ _ Hnd Hf).
  rewrite list_elem_of_fmap. intros (y & -> & Hy).
  apply list_elem_of_filter in Hy as [Hy _]. by apply Hy.
Qed.

Lemma store_ok_init : store_ok [] 1.
Proof. split_and!; [apply NoDup_nil_2 | apply Forall_nil_2 | lia]. Qed.

Lemma store_ok_append keys nid :
  store_ok keys nid → store_ok (keys ++ [nid]) (nid + 1).
Proof.
  intros (Hnd & Hlt & Hpos). split_and!; [| |lia].
  - apply NoDup_app. split_and!; [done| |apply NoDup_singleton].
    intros k Hk ->%list_elem_of_singleton.
    rewrite Forall_forall in Hlt. specialize (Hlt _ Hk). lia.
  - apply Forall_app. split.
    + eapply Forall_impl; [done|]. cbn. lia.
    + apply Forall_singleton. lia.
Qed.

Lemma store_ok_delete keys nid i :
  store_ok keys nid → store_ok (delete i keys) nid.
Proof.
  intros (Hnd & Hlt & Hpos). split_and!; [| |done].
  - apply (sublist_NoDup _ keys); [done|apply sublist_delete].
  - by apply Forall_delete.
Qed.

Lemma store_ok_below keys nid k :
  store_ok keys nid → k ∈ keys → 0 < k < nid.
Proof. intros (_ & Hlt & _) Hk. rewrite Forall_forall in Hlt. auto. Qed.

(** Replacing the first record with id [k] by one with the same id leaves
    it the first record with id [k]. *)
Lemma find_after_insert l k i x y :
  list_find (λ x, key x = k) l = Some (i, x) → key y = key x →
  list_find (λ x, key x = k) (<[i := y]> l) = Some (i, y).
Proof.
  intros (Hi & Hk & Hleast)%list_find_Some Hy. apply list_find_Some.
  split_and!.
  - apply list_lookup_insert_eq. by eapply lookup_lt_Some.
  - congruence.
  - intros j z Hj Hlt. apply (Hleast j z); [|done].
    rewrite list_lookup_insert_ne in Hj by lia. done.
Qed.

End Keyed.
End Keyed.

(** ** What each items handler computes *)

Module MainFacts.
Import Main.

Ltac run_handler :=
  cbv [mbind mret handler_bind handler_ret bind ret raise get put
       when_not_None subscript setitem store_at pop].

Lemma get_item_eq item_id s :
  get_item item_id s =
  (match next_elem (λ it, id it = item_id) (items_db s) with
   | Some it => Returns it
   | None => Raises (HTTPException 404 "Item not found")
   end, s).
Proof.
  unfold get_item. run_handler.
  by destruct (next_elem _ _).
Qed.

Lemma create_item_eq item now s :
  create_item item now s =
  let new_item := mkItem (next_id s) (ic_name item) (ic_description item)
                    (ic_price item) now in
  (Returns new_item, mkState (items_db s ++ [new_item]) (next_id s + 1)).
Proof. reflexivity. Qed.

Lemma update_item_missing item_id item s :
  list_find (λ it, id it = item_id) (items_db s) = None →
  update_item item_id item s =
  (Raises (HTTPException 404 "Item not found"), s).
Proof.
  intros Hf. unfold update_item, next_index. run_handler. by rewrite Hf.
Qed.

Lemma update_item_found item_id item s i it :
  list_find (λ it, id it = item_id) (items_db s) = Some (i, it) →
  update_item item_id item s =
  (Returns (merged item it),
   mkState (<[i := merged item it]> (items_db s)) (next_id s)).
Proof.
  intros Hf. unfold update_item, next_index. run_handler. rewrite Hf. cbn.
  apply list_find_Some in Hf as (Hi & _ & _).
  destruct s as [db nid]; cbn in *.
  destruct item as [[v1|] [v2|] [v3|]]; cbn;
    rewrite ?Hi; cbn;
    rewrite ?list_lookup_insert_eq by (rewrite ?length_insert; eauto using lookup_lt_Some); cbn;
    rewrite ?list_lookup_insert_eq by (rewrite ?length_insert; eauto using lookup_lt_Some); cbn;
    rewrite ?list_lookup_insert_eq by (rewrite ?length_insert; eauto using lookup_lt_Some); cbn;
    rewrite ?list_insert_insert_eq; try reflexivity.
  destruct it; unfold merged; cbn. by rewrite list_insert_id.
Qed.

Lemma delete_item_missing item_id s :
  list_find (λ it, id it = item_id) (items_db s) = None →
  delete_item item_id s =
  (Raises (HTTPException 404 "Item not found"), s).
Proof.
  intros Hf. unfold delete_item, next_index. run_handler. by rewrite Hf.
Qed.

Lemma delete_item_found item_id s i it :
  list_find (λ it, id it = item_id) (items_db s) = Some (i, it) →
  delete_item item_id s =
  (Returns (deleted_message it),
   mkState (delete i (items_db s)) (next_id s)).
Proof.
  intros Hf. unfold delete_item, next_index. run_handler. rewrite Hf. cbn.
  apply list_find_Some in Hf as (Hi & _ & _). by rewrite Hi.
Qed.

Lemma get_item_found item_id s i it :
  list_find (λ it, id it = item_id) (items_db s) = Some (i, it) →
  get_item item_id s = (Returns it, s).
Proof. intros Hf. rewrite get_item_eq. unfold next_elem. by rewrite Hf. Qed.

Lemma get_item_missing item_id s :
  list_find (λ it, id it = item_id) (items_db s) = None →
  get_item item_id s = (Raises (HTTPException 404 "Item not found"), s).
Proof. intros Hf. rewrite get_item_eq. unfold next_elem. by rewrite Hf. Qed.

Lemma items_serve_step r s : step s r (serve r s).1 (serve r s).2.
Proof.
  destruct r as [|item_id|item now|item_id item|item_id];
    unfold serve; rewrite bind_mret.
  - apply step_list.
  - destruct (list_find (λ it, id it = item_id) (items_db s))
      as [[i it]|] eqn:Hf.
    + rewrite (get_item_found _ _ _ _ Hf). by eapply step_get.
    + rewrite (get_item_missing _ _ Hf). by apply step_get_missing.
  - rewrite create_item_eq. apply step_create.
  - destruct (list_find (λ it, id it = item_id) (items_db s))
      as [[i it]|] eqn:Hf.
    + rewrite (update_item_found _ _ _ _ _ Hf). by apply step_update.
    + rewrite (update_item_missing _ _ _ Hf). by apply step_update_missing.
  - destruct (list_find (λ it, id it = item_id) (items_db s))
      as [[i it]|] eqn:Hf.
    + rewrite (delete_item_found _ _ _ _ Hf). by apply step_delete.
    + rewrite (delete_item_missing _ _ Hf). by apply step_delete_missing.
Qed.

Lemma items_merged_id item it : id (merged item it) = id it.
Proof. reflexivity. Qed.

(** A step keeps the store invariant. *)
Lemma items_step_ok s r o s' :
  step s r o s' →
  Store.store_ok (ids s) (next_id s) → Store.store_ok (ids s') (next_id s').
Proof.
  unfold ids. intros [] Hok; cbn; try done.
  - rewrite fmap_app. by apply Keyed.store_ok_append.
  - apply Keyed.find_at in H as [Hi _].
    by rewrite (Keyed.keys_insert id _ _ _ _ Hi (items_merged_id _ _)).
  - rewrite list_fmap_delete. by apply Keyed.store_ok_delete.
Qed.

(** A step moves the counter by one on a create and not at all otherwise,
    and a create hands out the counter it found. *)
Lemma items_step_counter s r o s' :
  step s r o s' →
  next_id s' = next_id s + (if is_create r then 1 else 0)
  ∧ created_id (r, o) = if is_create r then Some (next_id s) else None.
Proof. intros []; cbn; split; (done || lia). Qed.

(** A step that fails is a not-found on an id the store has no record of,
    and it leaves the state alone. *)
Lemma items_step_raises s r o s' e :
  step s r o s' → o = Raises e →
  e = HTTPException 404 "Item not found" ∧ s' = s
  ∧ ∃ item_id, (item_id ∉ ids s)
      ∧ (r = GET_item item_id ∨ (∃ item, r = PUT_item item_id item)
         ∨ r = DELETE_item item_id).
Proof.
  intros [] [= <-]; (split; [done|]); (split; [done|]);
    exists item_id; (split; [by apply Keyed.find_missing|]); eauto.
Qed.

Lemma items_run_cons r reqs s :
  run (r :: reqs) s =
  ((r, (serve r s).1) :: (run reqs (serve r s).2).1,
   (run reqs (serve r s).2).2).
Proof.
  change (run (r :: reqs) s) with
    (let '(o, s') := serve r s in
     let '(t, s'') := run reqs s' in ((r, o) :: t, s'')).
  destruct (serve r s) as [o s1]. cbn [fst snd]. by destruct (run reqs s1).
Qed.

Lemma items_run_ok reqs s :
  Store.store_ok (ids s) (next_id s) →
  Store.store_ok (ids (run reqs s).2) (next_id (run reqs s).2).
Proof.
  revert s. induction reqs as [|r reqs IH]; intros s Hok; [done|].
  rewrite items_run_cons. cbn. apply IH. eapply items_step_ok; [apply items_serve_step|done].
Qed.

Lemma items_reachable_ok s : reachable s → Store.store_ok (ids s) (next_id s).
Proof. intros [reqs <-]. apply items_run_ok, Keyed.store_ok_init. Qed.

Lemma items_created_ids_cons e t :
  created_ids (e :: t) =
  match created_id e with
  | Some k => k :: created_ids t
  | None => created_ids t
  end.
Proof. reflexivity. Qed.

(** The ids a run hands out count up from the counter it starts with. *)
Lemma items_run_created reqs s :
  created_ids (run reqs s).1
  = seqZ (next_id s) (Z.of_nat (length (List.filter is_create reqs)))
  ∧ next_id (run reqs s).2
    = next_id s + Z.of_nat (length (List.filter is_create reqs)).
Proof.
  revert s. induction reqs as [|r reqs IH]; intros s.
  - cbn. split; [done|lia].
  - rewrite items_run_cons. cbn [fst snd List.filter]. rewrite items_created_ids_cons.
    destruct (items_step_counter _ _ _ _ (items_serve_step r s)) as [Hn Hc].
    destruct (IH (serve r s).2) as [IH1 IH2].
    rewrite Hc, IH1, IH2, Hn.
    destruct (is_create r); cbn [length].
    + split; [|lia]. rewrite Nat2Z.inj_succ, (seqZ_cons (next_id s)) by lia.
      do 2 f_equal; lia.
    + split; [|lia]. by rewrite Z.add_0_r.
Qed.

Lemma get_item_returns item_id s it s' :
  get_item item_id s = (Returns it, s') →
  ∃ i, list_find (λ it, id it = item_id) (items_db s) = Some (i, it).
Proof.
  rewrite get_item_eq. unfold next_elem.
  destruct (list_find _ _) as [[i x]|]; cbn; [|done].
  intros [= <- <-]. eauto.
Qed.

Lemma get_item_after_update item_id item s i it :
  list_find (λ it, id it = item_id) (items_db s) = Some (i, it) →
  get_item item_id
    (mkState (<[i := merged item it]> (items_db s)) (next_id s))
  = (Returns (merged item it),
     mkState (<[i := merged item it]> (items_db s)) (next_id s)).
Proof.
  intros Hf. eapply get_item_found. cbn.
  by apply (Keyed.find_after_insert id _ _ _ it).
Qed.

End MainFacts.

(** ** What each notes handler computes *)

Module NotesFacts.
Import Notes.

Ltac run_handler :=
  cbv [mbind mret handler_bind handler_ret bind ret raise get put pop].

Lemma assignments_merged note n :
  assign_if_not_None (nu_tags note) set_tags
    (assign_if_not_None (nu_content note) set_content
       (assign_if_not_None (nu_title note) set_title n)) = merged note n.
Proof. by destruct note as [[?|] [?|] [?|]], n. Qed.

Lemma get_note_eq note_id s :
  get_note note_id s =
  (match next_elem (λ n, id n = note_id) (notes_db s) with
   | Some n => Returns n
   | None => Raises (HTTPException 404 "Note not found")
   end, s).
Proof.
  unfold get_note. run_handler. by destruct (next_elem _ _).
Qed.

Lemma create_note_eq note now s :
  create_note note now s =
  let new_note := mkNote (next_id s) (nc_title note) (nc_content note)
                    (or_empty (nc_tags note)) now in
  (Returns new_note, mkState (notes_db s ++ [new_note]) (next_id s + 1)).
Proof. reflexivity. Qed.

Lemma update_note_loop_missing note_id note db :
  list_find (λ n, id n = note_id) db = None →
  update_note_loop note_id note db = None.
Proof.
  induction db as [|n db IH]; [done|]. cbn.
  destruct (decide (id n = note_id)); [done|].
  destruct (list_find _ db); [done|]. intros _. by rewrite IH.
Qed.

Lemma update_note_loop_found note_id note db i n :
  list_find (λ n, id n = note_id) db = Some (i, n) →
  update_note_loop note_id note db =
  Some (merged note n, <[i := merged note n]> db).
Proof.
  revert i. induction db as [|m db IH]; intros i; [done|]. cbn.
  destruct (decide (id m = note_id)).
  - intros [= <- <-]. by rewrite assignments_merged.
  - destruct (list_find _ db) as [[j x]|] eqn:Hf; [|done].
    cbn. intros [= <- <-]. by rewrite (IH j).
Qed.

Lemma update_note_missing note_id note s :
  list_find (λ n, id n = note_id) (notes_db s) = None →
  update_note note_id note s =
  (Raises (HTTPException 404 "Note not found"), s).
Proof.
  intros Hf. unfold update_note. run_handler.
  by rewrite update_note_loop_missing.
Qed.

Lemma update_note_found note_id note s i n :
  list_find (λ n, id n = note_id) (notes_db s) = Some (i, n) →
  update_note note_id note s =
  (Returns (merged note n),
   mkState (<[i := merged note n]> (notes_db s)) (next_id s)).
Proof.
  intros Hf. unfold update_note. run_handler.
  by rewrite (update_note_loop_found _ _ _ _ _ Hf).
Qed.

(** The loop of [delete_note] once it has passed the prefix [pre]. *)
Lemma delete_note_loop_eq note_id pre rest nid :
  delete_note_loop note_id (length pre) rest (mkState (pre ++ rest) nid) =
  match list_find (λ n, id n = note_id) rest with
  | Some (i, _) =>
      (Returns "Note deleted successfully",
       mkState (delete (length pre + i)%nat (pre ++ rest)) nid)
  | None =>
      (Raises (HTTPException 404 "Note not found"), mkState (pre ++ rest) nid)
  end.
Proof.
  revert pre. induction rest as [|n rest IH]; intros pre; [done|]. cbn.
  destruct (decide (id n = note_id)).
  - run_handler. cbn.
    rewrite lookup_app_r, Nat.sub_diag by lia. cbn.
    by rewrite Nat.add_0_r.
  - specialize (IH (pre ++ [n])).
    rewrite length_app, <- app_assoc in IH. cbn in IH.
    rewrite Nat.add_1_r in IH. rewrite IH.
    destruct (list_find _ rest) as [[i x]|]; cbn; [|done].
    do 3 f_equal. lia.
Qed.

Lemma delete_note_missing note_id s :
  list_find (λ n, id n = note_id) (notes_db s) = None →
  delete_note note_id s =
  (Raises (HTTPException 404 "Note not found"), s).
Proof.
  intros Hf. destruct s as [db nid]. unfold delete_note. run_handler. cbn.
  pose proof (delete_note_loop_eq note_id [] db nid) as H. cbn in H.
  rewrite H. cbn in Hf. by rewrite Hf.
Qed.

Lemma delete_note_found note_id s i n :
  list_find (λ n, id n = note_id) (notes_db s) = Some (i, n) →
  delete_note note_id s =
  (Returns "Note deleted successfully",
   mkState (delete i (notes_db s)) (next_id s)).
Proof.
  intros Hf. destruct s as [db nid]. unfold delete_note. run_handler. cbn.
  pose proof (delete_note_loop_eq note_id [] db nid) as H. cbn in H.
  rewrite H. cbn in Hf. by rewrite Hf.
Qed.

Lemma get_note_found note_id s i n :
  list_find (λ n, id n = note_id) (notes_db s) = Some (i, n) →
  get_note note_id s = (Returns n, s).
Proof. intros Hf. rewrite get_note_eq. unfold next_elem. by rewrite Hf. Qed.

Lemma get_note_missing note_id s :
  list_find (λ n, id n = note_id) (notes_db s) = None →
  get_note note_id s = (Raises (HTTPException 404 "Note not found"), s).
Proof. intros Hf. rewrite get_note_eq. unfold next_elem. by rewrite Hf. Qed.

Lemma get_notes_eq lower search tag s :
  get_notes lower search tag s =
  (Returns (apply_tag lower tag (apply_search lower search (notes_db s))), s).
Proof. reflexivity. Qed.

(** *** Substrings, membership and the two filters *)

Lemma truthy_true q : truthy q = true ↔ q ≠ "".
Proof. by destruct q. Qed.

Lemma starts_with_spec p s :
  starts_with p s = true ↔ ∃ post, s = p +:+ post.
Proof.
  revert s. induction p as [|a p IH]; intros s; cbn.
  - split; [by exists s | done].
  - destruct s as [|b s].
    + split; [done | by intros [post [=]]].
    + rewrite andb_true_iff, bool_decide_eq_true, IH. split.
      * intros [-> [post ->]]. by exists post.
      * intros [post [= -> ->]]. eauto.
Qed.

(** [str_in x s] holds exactly when [s] is some text, then [x], then some
    text. *)
Lemma str_in_spec x s :
  str_in x s = true ↔ ∃ pre post, s = pre +:+ x +:+ post.
Proof.
  induction s as [|b s IH]; cbn; rewrite orb_true_iff, starts_with_spec.
  - split.
    + intros [[post ->]|[=]]. by exists "", post.
    + intros ([|? ?] & post & Heq); [|done]. left. by exists post.
  - rewrite IH. split.
    + intros [[post ->]|(pre & post & ->)]; [by exists "", post|].
      by exists (String b pre), post.
    + intros ([|a pre] & post & Heq).
      * left. by exists post.
      * right. injection Heq as -> ->. by exists pre, post.
Qed.

Lemma list_in_spec x l : list_in x l = true ↔ x ∈ l.
Proof. unfold list_in. by rewrite bool_decide_eq_true. Qed.

Section FilterFacts.
Variable lower : string → string.

Lemma search_matches_spec search n :
  search_matches lower search n = true ↔
  (∃ pre post, lower (title n) = pre +:+ lower search +:+ post)
  ∨ (∃ pre post, lower (content n) = pre +:+ lower search +:+ post).
Proof.
  unfold search_matches. by rewrite orb_true_iff, !str_in_spec.
Qed.

Lemma tag_matches_spec tag n :
  tag_matches lower tag n = true ↔ ∃ t, t ∈ tags n ∧ lower t = lower tag.
Proof.
  unfold tag_matches. rewrite list_in_spec, list_elem_of_fmap. split.
  - intros (t & Heq & Ht). eauto.
  - intros (t & Ht & Heq). eauto.
Qed.

Lemma filter_swap {A} (p q : A → bool) (l : list A) :
  List.filter p (List.filter q l) = List.filter q (List.filter p l).
Proof.
  induction l as [|x l IH]; [done|]. cbn.
  destruct (q x) eqn:Hq, (p x) eqn:Hp; cbn; rewrite ?Hq, ?Hp, IH; done.
Qed.

Lemma filter_both {A} (p q : A → bool) (l : list A) :
  List.filter q (List.filter p l) = List.filter (λ x, p x && q x) l.
Proof.
  induction l as [|x l IH]; [done|]. cbn.
  destruct (p x) eqn:Hp; cbn; rewrite ?IH; done.
Qed.

(** The two [if] statements of [get_notes] can be taken in either order. *)
Lemma apply_tag_search_swap search tag l :
  apply_tag lower tag (apply_search lower search l)
  = apply_search lower search (apply_tag lower tag l).
Proof.
  destruct search as [q|], tag as [t|]; cbn; try done.
  destruct (truthy q), (truthy t); try done. apply filter_swap.
Qed.

Lemma filter_sublist {A} (p : A → bool) (l : list A) :
  List.filter p l `sublist_of` l.
Proof.
  induction l as [|x l IH]; cbn; [done|].
  destruct (p x); by constructor.
Qed.

(** Whatever the query, the listing is a subsequence of the store. *)
Lemma listing_sublist search tag l :
  apply_tag lower tag (apply_search lower search l) `sublist_of` l.
Proof.
  transitivity (apply_search lower search l).
  - destruct tag as [t|]; cbn; [|done].
    destruct (truthy t); [apply filter_sublist|done].
  - destruct search as [q|]; cbn; [|done].
    destruct (truthy q); [apply filter_sublist|done].
Qed.

Lemma str_in_empty s : str_in "" s = true.
Proof. by destruct s. Qed.

End FilterFacts.

Section Runs.
Variable lower : string → string.

Lemma notes_serve_step r s : step lower s r (serve lower r s).1 (serve lower r s).2.
Proof.
  destruct r as [note now|search tag|note_id|note_id note|note_id];
    unfold serve; rewrite bind_mret.
  - rewrite create_note_eq. apply step_create.
  - rewrite get_notes_eq. apply step_list.
  - destruct (list_find (λ n, id n = note_id) (notes_db s))
      as [[i n]|] eqn:Hf.
    + rewrite (get_note_found _ _ _ _ Hf). by eapply step_get.
    + rewrite (get_note_missing _ _ Hf). by apply step_get_missing.
  - destruct (list_find (λ n, id n = note_id) (notes_db s))
      as [[i n]|] eqn:Hf.
    + rewrite (update_note_found _ _ _ _ _ Hf). by apply step_update.
    + rewrite (update_note_missing _ _ _ Hf). by apply step_update_missing.
  - destruct (list_find (λ n, id n = note_id) (notes_db s))
      as [[i n]|] eqn:Hf.
    + rewrite (delete_note_found _ _ _ _ Hf). by eapply step_delete.
    + rewrite (delete_note_missing _ _ Hf). by apply step_delete_missing.
Qed.

Lemma notes_merged_id note n : id (merged note n) = id n.
Proof. reflexivity. Qed.

(** A step keeps the store invariant. *)
Lemma notes_step_ok s r o s' :
  step lower s r o s' →
  Store.store_ok (ids s) (next_id s) → Store.store_ok (ids s') (next_id s').
Proof.
  unfold ids. intros [] Hok; cbn; try done.
  - rewrite fmap_app. by apply Keyed.store_ok_append.
  - apply Keyed.find_at in H as [Hi _].
    by rewrite (Keyed.keys_insert id _ _ _ _ Hi (notes_merged_id _ _)).
  - rewrite list_fmap_delete. by apply Keyed.store_ok_delete.
Qed.

(** A step moves the counter by one on a create and not at all otherwise,
    and a create hands out the counter it found. *)
Lemma notes_step_counter s r o s' :
  step lower s r o s' →
  next_id s' = next_id s + (if is_create r then 1 else 0)
  ∧ created_id (r, o) = if is_create r then Some (next_id s) else None.
Proof. intros []; cbn; split; (done || lia). Qed.

(** A step that fails is a not-found on an id the store has no record of,
    and it leaves the state alone. *)
Lemma notes_step_raises s r o s' e :
  step lower s r o s' → o = Raises e →
  e = HTTPException 404 "Note not found" ∧ s' = s
  ∧ ∃ note_id, (note_id ∉ ids s)
      ∧ (r = GET_note note_id ∨ (∃ note, r = PUT_note note_id note)
         ∨ r = DELETE_note note_id).
Proof.
  intros [] [= <-]; (split; [done|]); (split; [done|]);
    exists note_id; (split; [by apply Keyed.find_missing|]); eauto.
Qed.

Lemma notes_run_cons r reqs s :
  run lower (r :: reqs) s =
  ((r, (serve lower r s).1) :: (run lower reqs (serve lower r s).2).1,
   (run lower reqs (serve lower r s).2).2).
Proof.
  change (run lower (r :: reqs) s) with
    (let '(o, s') := serve lower r s in
     let '(t, s'') := run lower reqs s' in ((r, o) :: t, s'')).
  destruct (serve lower r s) as [o s1]. cbn [fst snd].
  by destruct (run lower reqs s1).
Qed.

Lemma notes_run_ok reqs s :
  Store.store_ok (ids s) (next_id s) →
  Store.store_ok (ids (run lower reqs s).2) (next_id (run lower reqs s).2).
Proof.
  revert s. induction reqs as [|r reqs IH]; intros s Hok; [done|].
  rewrite notes_run_cons. cbn. apply IH. eapply notes_step_ok; [apply notes_serve_step|done].
Qed.

Lemma notes_reachable_ok s :
  reachable lower s → Store.store_ok (ids s) (next_id s).
Proof. intros [reqs <-]. apply notes_run_ok, Keyed.store_ok_init. Qed.

Lemma notes_created_ids_cons e t :
  created_ids (e :: t) =
  match created_id e with
  | Some k => k :: created_ids t
  | None => created_ids t
  end.
Proof. reflexivity. Qed.

(** The ids a run hands out count up from the counter it starts with. *)
Lemma notes_run_created reqs s :
  created_ids (run lower reqs s).1
  = seqZ (next_id s) (Z.of_nat (length (List.filter is_create reqs)))
  ∧ next_id (run lower reqs s).2
    = next_id s + Z.of_nat (length (List.filter is_create reqs)).
Proof.
  revert s. induction reqs as [|r reqs IH]; intros s.
  - cbn. split; [done|lia].
  - rewrite notes_run_cons. cbn [fst snd List.filter]. rewrite notes_created_ids_cons.
    destruct (notes_step_counter _ _ _ _ (notes_serve_step r s)) as [Hn Hc].
    destruct (IH (serve lower r s).2) as [IH1 IH2].
    rewrite Hc, IH1, IH2, Hn.
    destruct (is_create r); cbn [length].
    + split; [|lia]. rewrite Nat2Z.inj_succ, (seqZ_cons (next_id s)) by lia.
      do 2 f_equal; lia.
    + split; [|lia]. by rewrite Z.add_0_r.
Qed.

End Runs.

Lemma get_note_returns note_id s n s' :
  get_note note_id s = (Returns n, s') →
  ∃ i, list_find (λ n, id n = note_id) (notes_db s) = Some (i, n).
Proof.
  rewrite get_note_eq. unfold next_elem.
  destruct (list_find _ _) as [[i x]|]; cbn; [|done].
  intros [= <- <-]. eauto.
Qed.

Lemma get_note_after_update note_id note s i n :
  list_find (λ n, id n = note_id) (notes_db s) = Some (i, n) →
  get_note note_id
    (mkState (<[i := merged note n]> (notes_db s)) (next_id s))
  = (Returns (merged note n),
     mkState (<[i := merged note n]> (notes_db s)) (next_id s)).
Proof.
  intros Hf. eapply get_note_found. cbn.
  by apply (Keyed.find_after_insert id _ _ _ n).
Qed.

End NotesFacts.

(** ** Looking up one id after a change to another *)

Module Frames.
Import Compose.

Section Frames.
Context {A : Type} (key : A → Z).
Implicit Types (l : list A) (j k : Z) (x y : A).

(** Replacing a record whose id is not [j] by another whose id is not [j]
    does not move the first record with id [j]. *)
Lemma find_insert_other l i x y j :
  l !! i = Some x → key x ≠ j → key y ≠ j →
  list_find (λ x, key x = j) (<[i := y]> l) = list_find (λ x, key x = j) l.
Proof.
  revert i. induction l as [|z l IH]; intros i Hi Hx Hy; [done|].
  destruct i as [|i]; cbn in *.
  - injection Hi as ->.
    destruct (decide (key y = j)); [done|].
    by destruct (decide (key x = j)).
  - destruct (decide (key z = j)); [done|]. f_equal. by apply (IH i).
Qed.

Lemma snd_shifted (o : option (nat * A)) :
  snd <$> (prod_map S id <$> o) = snd <$> o.
Proof. by destruct o as [[? ?]|]. Qed.

(** Removing a record whose id is not [j] does not change which record is
    the first with id [j]. *)
Lemma find_delete_other l i x j :
  l !! i = Some x → key x ≠ j →
  snd <$> list_find (λ x, key x = j) (delete i l)
  = snd <$> list_find (λ x, key x = j) l.
Proof.
  revert i. induction l as [|z l IH]; intros i Hi Hx; [done|].
  destruct i as [|i]; cbn in *.
  - injection Hi as ->. destruct (decide (key x = j)); [done|].
    by rewrite snd_shifted.
  - destruct (decide (key z = j)); [done|].
    rewrite !snd_shifted. by apply (IH i).
Qed.

(** A record appended at the end is found under its id when no earlier
    record has it, and hides no earlier record. *)
Lemma find_app_new l y j :
  list_find (λ x, key x = j) (l ++ [y]) =
  match list_find (λ x, key x = j) l with
  | Some r => Some r
  | None => if decide (key y = j) then Some (length l, y) else None
  end.
Proof.
  destruct (list_find _ l) as [[i x]|] eqn:Hf.
  - by apply list_find_app_l.
  - rewrite list_find_app_r by done. cbn.
    destruct (decide (key y = j)); cbn; [|done]. do 2 f_equal. 
Qed.

Lemma sorted_NoDup (keys : list Z) : StronglySorted Z.lt keys → NoDup keys.
Proof.
  induction 1 as [|k keys _ IH Hall]; [apply NoDup_nil_2|].
  apply NoDup_cons. split; [|done].
  intros Hk. rewrite Forall_forall in Hall. specialize (Hall _ Hk). lia.
Qed.

Lemma sorted_delete (keys : list Z) i :
  StronglySorted Z.lt keys → StronglySorted Z.lt (delete i keys).
Proof.
  intros Hs. revert i. induction Hs as [|k keys Hs IH Hall]; intros i.
  - destruct i; constructor.
  - destruct i as [|i]; cbn; [done|].
    constructor; [apply IH|by apply Forall_delete].
Qed.

Lemma store_sorted_init : store_sorted [] 1.
Proof. split_and!; [constructor|apply Forall_nil_2|lia]. Qed.

Lemma store_sorted_append keys nid :
  store_sorted keys nid → store_sorted (keys ++ [nid]) (nid + 1).
Proof.
  intros (Hs & Hlt & Hpos). split_and!; [| |lia].
  - apply StronglySorted_app. split_and!.
    + intros k1 k2 Hk1 ->%list_elem_of_singleton.
      rewrite Forall_forall in Hlt. specialize (Hlt _ Hk1). lia.
    + done.
    + repeat constructor.
  - apply Forall_app. split.
    + eapply Forall_impl; [done|]. cbn. lia.
    + apply Forall_singleton. lia.
Qed.

Lemma store_sorted_delete keys nid i :
  store_sorted keys nid → store_sorted (delete i keys) nid.
Proof.
  intros (Hs & Hlt & Hpos). split_and!; [| |done].
  - by apply sorted_delete.
  - by apply Forall_delete.
Qed.

Lemma store_sorted_ok keys nid :
  store_sorted keys nid → Store.store_ok keys nid.
Proof. intros (Hs & Hlt & Hpos). split_and!; [by apply sorted_NoDup|done..]. Qed.

End Frames.
End Frames.

(** ** The order of the ids in the states of a run *)

Module Sorted.
Import Compose MainFacts NotesFacts.

Lemma items_step_sorted s r o s' :
  Main.step s r o s' →
  store_sorted (Main.ids s) (Main.next_id s) →
  store_sorted (Main.ids s') (Main.next_id s').
Proof.
  unfold Main.ids. intros [] Hok; cbn; try done.
  - rewrite fmap_app. by apply Frames.store_sorted_append.
  - apply Keyed.find_at in H as [Hi _].
    by rewrite (Keyed.keys_insert Main.id _ _ _ _ Hi (items_merged_id _ _)).
  - rewrite list_fmap_delete. by apply Frames.store_sorted_delete.
Qed.

Lemma items_run_sorted reqs s :
  store_sorted (Main.ids s) (Main.next_id s) →
  store_sorted (Main.ids (Main.run reqs s).2) (Main.next_id (Main.run reqs s).2).
Proof.
  revert s. induction reqs as [|r reqs IH]; intros s Hok; [done|].
  rewrite items_run_cons. cbn. apply IH.
  eapply items_step_sorted; [apply items_serve_step|done].
Qed.

Lemma items_reachable_sorted s :
  Main.reachable s → store_sorted (Main.ids s) (Main.next_id s).
Proof. intros [reqs <-]. apply items_run_sorted, Frames.store_sorted_init. Qed.

Lemma notes_step_sorted lower s r o s' :
  Notes.step lower s r o s' →
  store_sorted (Notes.ids s) (Notes.next_id s) →
  store_sorted (Notes.ids s') (Notes.next_id s').
Proof.
  unfold Notes.ids. intros [] Hok; cbn; try done.
  - rewrite fmap_app. by apply Frames.store_sorted_append.
  - apply Keyed.find_at in H as [Hi _].
    by rewrite (Keyed.keys_insert Notes.id _ _ _ _ Hi (notes_merged_id _ _)).
  - rewrite list_fmap_delete. by apply Frames.store_sorted_delete.
Qed.

Lemma notes_run_sorted lower reqs s :
  store_sorted (Notes.ids s) (Notes.next_id s) →
  store_sorted (Notes.ids (Notes.run lower reqs s).2)
    (Notes.next_id (Notes.run lower reqs s).2).
Proof.
  revert s. induction reqs as [|r reqs IH]; intros s Hok; [done|].
  rewrite notes_run_cons. cbn. apply IH.
  eapply notes_step_sorted; [apply notes_serve_step|done].
Qed.

Lemma notes_reachable_sorted lower s :
  Notes.reachable lower s → store_sorted (Notes.ids s) (Notes.next_id s).
Proof.
  intros [reqs <-]. apply notes_run_sorted, Frames.store_sorted_init.
Qed.

(** What [store_sorted] says of the ids, spelled out. *)
Lemma store_sorted_facts {A} (key : A → Z) (l : list A) nid :
  store_sorted (key <$> l) nid →
  StronglySorted Z.lt (key <$> l)
  ∧ Forall (λ k, 1 ≤ k < nid) (key <$> l)
  ∧ (∀ i j a b,
       l !! i = Some a → l !! j = Some b → key a = key b → i = j).
Proof.
  intros (Hs & Hlt & Hpos). split_and!; [done| |].
  - eapply Forall_impl; [done|]. cbn. lia.
  - intros i j a b Hi Hj Hab.
    apply (NoDup_lookup (key <$> l) i j (key a)).
    + by apply Frames.sorted_NoDup.
    + by rewrite list_lookup_fmap, Hi.
    + by rewrite list_lookup_fmap, Hj, Hab.
Qed.

End Sorted.

(** ** Each mutation as one equation *)

Module Effects.
Import MainFacts NotesFacts.

Lemma update_item_eq k item s :
  Main.update_item k item s =
  match list_find (λ it, Main.id it = k) (Main.items_db s) with
  | Some (i, it) =>
      (Returns (Main.merged item it),
       Main.mkState (<[i := Main.merged item it]> (Main.items_db s))
         (Main.next_id s))
  | None => (Raises (HTTPException 404 "Item not found"), s)
  end.
Proof.
  destruct (list_find _ _) as [[i it]|] eqn:Hf.
  - by apply update_item_found.
  - by apply update_item_missing.
Qed.

Lemma delete_item_eq k s :
  Main.delete_item k s =
  match list_find (λ it, Main.id it = k) (Main.items_db s) with
  | Some (i, it) =>
      (Returns (Main.deleted_message it),
       Main.mkState (delete i (Main.items_db s)) (Main.next_id s))
  | None => (Raises (HTTPException 404 "Item not found"), s)
  end.
Proof.
  destruct (list_find _ _) as [[i it]|] eqn:Hf.
  - by apply delete_item_found.
  - by apply delete_item_missing.
Qed.

Lemma update_note_eq k note s :
  Notes.update_note k note s =
  match list_find (λ n, Notes.id n = k) (Notes.notes_db s) with
  | Some (i, n) =>
      (Returns (Notes.merged note n),
       Notes.mkState (<[i := Notes.merged note n]> (Notes.notes_db s))
         (Notes.next_id s))
  | None => (Raises (HTTPException 404 "Note not found"), s)
  end.
Proof.
  destruct (list_find _ _) as [[i n]|] eqn:Hf.
  - by apply update_note_found.
  - by apply update_note_missing.
Qed.

Lemma delete_note_eq k s :
  Notes.delete_note k s =
  match list_find (λ n, Notes.id n = k) (Notes.notes_db s) with
  | Some (i, n) =>
      (Returns "Note deleted successfully",
       Notes.mkState (delete i (Notes.notes_db s)) (Notes.next_id s))
  | None => (Raises (HTTPException 404 "Note not found"), s)
  end.
Proof.
  destruct (list_find _ _) as [[i n]|] eqn:Hf.
  - by apply (delete_note_found _ _ _ _ Hf).
  - by apply delete_note_missing.
Qed.

(** What a get returns, as a function of the collection alone. *)
Lemma get_item_outcome j s :
  (Main.get_item j s).1 =
  match snd <$> list_find (λ it, Main.id it = j) (Main.items_db s) with
  | Some it => Returns it
  | None => Raises (HTTPException 404 "Item not found")
  end.
Proof. by rewrite get_item_eq. Qed.

Lemma get_note_outcome j s :
  (Notes.get_note j s).1 =
  match snd <$> list_find (λ n, Notes.id n = j) (Notes.notes_db s) with
  | Some n => Returns n
  | None => Raises (HTTPException 404 "Note not found")
  end.
Proof. by rewrite get_note_eq. Qed.

Lemma item_updates_merged first second it :
  Main.merged second (Main.merged first it)
  = Main.merged (Compose.item_updates first second) it.
Proof. by destruct first as [[?|] [?|] [?|]], second as [[?|] [?|] [?|]]. Qed.

Lemma note_updates_merged first second n :
  Notes.merged second (Notes.merged first n)
  = Notes.merged (Compose.note_updates first second) n.
Proof. by destruct first as [[?|] [?|] [?|]], second as [[?|] [?|] [?|]]. Qed.

End Effects.

(** ** The listing as a filter of the store *)

Module Listing.
Import Compose MainFacts NotesFacts.

Lemma filter_all {A} (l : list A) : List.filter (λ _, true) l = l.
Proof. induction l as [|x l IH]; [done|]. cbn. by rewrite IH. Qed.

Lemma elem_of_filter_bool {A} (p : A → bool) (l : list A) x :
  x ∈ List.filter p l ↔ x ∈ l ∧ p x = true.
Proof. by rewrite !list_elem_of_In, List.filter_In. Qed.

Lemma apply_search_keeps lower search l :
  Notes.apply_search lower search l
  = List.filter (search_keeps lower search) l.
Proof.
  unfold Notes.apply_search, search_keeps.
  destruct search as [q|]; [|by rewrite filter_all].
  destruct (Notes.truthy q); [done|by rewrite filter_all].
Qed.

Lemma apply_tag_keeps lower tag l :
  Notes.apply_tag lower tag l = List.filter (tag_keeps lower tag) l.
Proof.
  unfold Notes.apply_tag, tag_keeps.
  destruct tag as [t|]; [|by rewrite filter_all].
  destruct (Notes.truthy t); [done|by rewrite filter_all].
Qed.

(** A note is listed exactly when it is in the store and passes both
    statements. *)
Lemma listed_iff lower search tag l n :
  n ∈ Notes.apply_tag lower tag (Notes.apply_search lower search l) ↔
  n ∈ l ∧ search_keeps lower search n = true ∧ tag_keeps lower tag n = true.
Proof.
  rewrite apply_tag_keeps, apply_search_keeps, !elem_of_filter_bool.
  tauto.
Qed.

Lemma append_empty x : x +:+ "" = x.
Proof.
  induction x as [|a x IH]; [done|].
  change (String a (x +:+ "") = String a x). by rewrite IH.
Qed.

Lemma str_in_refl x : Notes.str_in x x = true.
Proof.
  apply str_in_spec. exists "", "".
  change (x = x +:+ ""). by rewrite append_empty.
Qed.

End Listing.

(** ** The size of the store along a run *)

Module Sizes.
Import Compose MainFacts NotesFacts.

Lemma items_step_length s r o s' :
  Main.step s r o s' →
  Z.of_nat (length (Main.items_db s'))
  = Z.of_nat (length (Main.items_db s))
    + (if Main.is_create r then 1 else 0)
    - (if item_deleted (r, o) then 1 else 0).
Proof.
  intros []; cbn; try lia.
  - rewrite length_app. cbn. lia.
  - rewrite length_insert. lia.
  - apply Keyed.find_at in H as [Hi _].
    rewrite length_delete by eauto. apply lookup_lt_Some in Hi. lia.
Qed.

Lemma items_run_length reqs s :
  Z.of_nat (length (Main.items_db (Main.run reqs s).2))
  = Z.of_nat (length (Main.items_db s))
    + Z.of_nat (length (List.filter Main.is_create reqs))
    - Z.of_nat (length (List.filter item_deleted (Main.run reqs s).1)).
Proof.
  revert s. induction reqs as [|r reqs IH]; intros s; [cbn; lia|].
  rewrite items_run_cons. cbn [fst snd List.filter].
  rewrite IH, (items_step_length _ _ _ _ (items_serve_step r s)).
  destruct (Main.is_create r), (item_deleted (r, (Main.serve r s).1));
    cbn [length]; lia.
Qed.

Lemma notes_step_length lower s r o s' :
  Notes.step lower s r o s' →
  Z.of_nat (length (Notes.notes_db s'))
  = Z.of_nat (length (Notes.notes_db s))
    + (if Notes.is_create r then 1 else 0)
    - (if note_deleted (r, o) then 1 else 0).
Proof.
  intros []; cbn; try lia.
  - rewrite length_app. cbn. lia.
  - rewrite length_insert. lia.
  - apply Keyed.find_at in H as [Hi _].
    rewrite length_delete by eauto. apply lookup_lt_Some in Hi. lia.
Qed.

Lemma notes_run_length lower reqs s :
  Z.of_nat (length (Notes.notes_db (Notes.run lower reqs s).2))
  = Z.of_nat (length (Notes.notes_db s))
    + Z.of_nat (length (List.filter Notes.is_create reqs))
    - Z.of_nat
        (length (List.filter note_deleted (Notes.run lower reqs s).1)).
Proof.
  revert s. induction reqs as [|r reqs IH]; intros s; [cbn; lia|].
  rewrite notes_run_cons. cbn [fst snd List.filter].
  rewrite IH, (notes_step_length _ _ _ _ _ (notes_serve_step lower r s)).
  destruct (Notes.is_create r),
    (note_deleted (r, (Notes.serve lower r s).1)); cbn [length]; lia.
Qed.

End Sizes.

(** ** The contract of the two services *)

Import MainFacts NotesFacts Samples.

Example two_items_eq :
  two_items =
  Main.mkState
    [widget_item; Main.mkItem 2 "Gadget" (Some "a small gadget") 12.5%float 1]
    3.
Proof. reflexivity. Qed.

Example three_notes_eq :
  three_notes = Notes.mkState [meeting_note; essay_note; scratch_note] 4.
Proof. reflexivity. Qed.

(** C1: in a run of requests from the initial state, with creates, deletes
    and every other route interleaved in any way, the ids the creates hand out
    are exactly 1, 2, ..., N in creation order, N the number of creates; so
    they increase strictly and none is handed out twice.  For both services. *)
Theorem created_ids_count_from_one :
  (∀ reqs,
     Main.created_ids (Main.run reqs Main.init).1
     = seqZ 1 (Z.of_nat (length (List.filter Main.is_create reqs))))
  ∧ (∀ lower reqs,
       Notes.created_ids (Notes.run lower reqs Notes.init).1
       = seqZ 1 (Z.of_nat (length (List.filter Notes.is_create reqs)))).
Proof.
  split.
  - intros reqs. apply (items_run_created reqs Main.init).
  - intros lower reqs. apply (notes_run_created lower reqs Notes.init).
Qed.

(** Three creates around a delete: the third create gets 3, not the freed 1. *)
Example ids_after_a_delete :
  Main.created_ids
    (Main.run
       [Main.POST_items widget 0; Main.POST_items gadget 1;
        Main.DELETE_item 1; Main.POST_items widget 2] Main.init).1
  = [1; 2; 3].
Proof. reflexivity. Qed.

(** C2, as the code has it: an update applies the non-null fields of its
    payload and nothing else, so no update sets a field to null (a
    description that was there stays there) and the result of an update has
    an empty field only where the record already had it or where the payload
    gives the empty value itself; a payload that gives an empty string or the
    empty tag list does overwrite the field with it.  For both services. *)
Theorem update_applies_non_null_fields :
  (∀ s item_id item it,
     Main.get_item item_id s = (Returns it, s) →
     ∃ it' s',
       Main.update_item item_id item s = (Returns it', s')
       ∧ Main.get_item item_id s' = (Returns it', s')
       ∧ (∀ v, Main.name it' = v ↔
               Main.iu_name item = Some v
               ∨ (Main.iu_name item = None ∧ Main.name it = v))
       ∧ (∀ v, Main.description it' = Some v ↔
               Main.iu_description item = Some v
               ∨ (Main.iu_description item = None
                  ∧ Main.description it = Some v))
       ∧ (Main.description it' = None ↔
          Main.iu_description item = None ∧ Main.description it = None)
       ∧ (∀ v, Main.price it' = v ↔
               Main.iu_price item = Some v
               ∨ (Main.iu_price item = None ∧ Main.price it = v)))
  ∧ (∀ s note_id note n,
       Notes.get_note note_id s = (Returns n, s) →
       ∃ n' s',
         Notes.update_note note_id note s = (Returns n', s')
         ∧ Notes.get_note note_id s' = (Returns n', s')
         ∧ (∀ v, Notes.title n' = v ↔
                 Notes.nu_title note = Some v
                 ∨ (Notes.nu_title note = None ∧ Notes.title n = v))
         ∧ (∀ v, Notes.content n' = v ↔
                 Notes.nu_content note = Some v
                 ∨ (Notes.nu_content note = None ∧ Notes.content n = v))
         ∧ (∀ v, Notes.tags n' = v ↔
                 Notes.nu_tags note = Some v
                 ∨ (Notes.nu_tags note = None ∧ Notes.tags n = v))).
Proof.
  split.
  - intros s item_id item it [i Hf]%get_item_returns.
    eexists _, _. split; [by apply update_item_found|].
    split; [by eapply get_item_after_update|].
    cbn. split_and!; intros; try apply default_is.
    + destruct (Main.iu_description item); intuition congruence.
    + destruct (Main.iu_description item); intuition congruence.
  - intros s note_id note n [i Hf]%get_note_returns.
    eexists _, _. split; [by apply update_note_found|].
    split; [by eapply get_note_after_update|].
    cbn. split_and!; intros; apply default_is.
Qed.

(** An update on the sample stores: an empty name for item 1, a new content
    for note 2. *)
Lemma update_applies_non_null_fields_witness :
  (Main.get_item 1 two_items = (Returns widget_item, two_items)
   ∧ ∃ it',
       (Main.update_item 1 (Main.mkItemUpdate (Some "") None None)
          two_items).1 = Returns it'
       ∧ Main.name it' = "" ∧ Main.description it' = None)
  ∧ (Notes.get_note 2 three_notes = (Returns essay_note, three_notes)
     ∧ ∃ n',
         (Notes.update_note 2 (Notes.mkNoteUpdate None (Some "done") None)
            three_notes).1 = Returns n'
         ∧ Notes.content n' = "done" ∧ Notes.tags n' = ["homework"]).
Proof.
  split; (split; [reflexivity|]).
  - destruct (proj1 update_applies_non_null_fields two_items 1
                (Main.mkItemUpdate (Some "") None None) widget_item eq_refl)
      as (it' & s' & Hu & _ & Hname & _ & Hdesc & _).
    exists it'. rewrite Hu. split_and!; [reflexivity| |].
    + apply Hname. left. reflexivity.
    + apply Hdesc. split; reflexivity.
  - destruct (proj2 update_applies_non_null_fields three_notes 2
                (Notes.mkNoteUpdate None (Some "done") None) essay_note
                eq_refl)
      as (n' & s' & Hu & _ & _ & Hcontent & Htags).
    exists n'. rewrite Hu. split_and!; [reflexivity| |].
    + apply Hcontent. left. reflexivity.
    + apply Htags. right. split; reflexivity.
Defined.

(** C2 as the specification words it fails: a payload whose [tags] is the
    empty list replaces the tags ["work"; "urgent"] of note 1 by the empty
    list, and a payload whose [name] is the empty string empties the name of
    item 1. *)
Lemma update_overwrites_with_empty_values :
  Notes.get_note 1 three_notes = (Returns meeting_note, three_notes)
  ∧ Notes.tags meeting_note = ["work"; "urgent"]
  ∧ Notes.update_note 1 (Notes.mkNoteUpdate None None (Some [])) three_notes
    = (Returns
         (Notes.mkNote 1 "team meeting notes" "agenda for Monday" [] 0),
       Notes.mkState
         [Notes.mkNote 1 "team meeting notes" "agenda for Monday" [] 0;
          essay_note; scratch_note] 4)
  ∧ Main.get_item 1 two_items = (Returns widget_item, two_items)
  ∧ Main.name widget_item = "Widget"
  ∧ (Main.update_item 1 (Main.mkItemUpdate (Some "") None None) two_items).1
    = Returns (Main.mkItem 1 "" None 0x1.3fae147ae147bp+3%float 0).
Proof. split_and!; reflexivity. Qed.

(** C3: when [get] finds the record [it] for the requested id, an update
    with any payload returns the record [it'] that carries the payload's
    value in each field the payload gives and [it]'s value in every other
    field, [id] and [created_at] included; [it'] replaces [it] at its index,
    every other index of the collection holds what it held, and the counter
    is the same.  For both services. *)
Theorem update_overwrites_present_fields_only :
  (∀ s item_id item it,
     Main.get_item item_id s = (Returns it, s) →
     ∃ i it' s',
       Main.update_item item_id item s = (Returns it', s')
       ∧ Main.name it' = default (Main.name it) (Main.iu_name item)
       ∧ Main.description it'
         = match Main.iu_description item with
           | Some v => Some v
           | None => Main.description it
           end
       ∧ Main.price it' = default (Main.price it) (Main.iu_price item)
       ∧ Main.id it' = Main.id it
       ∧ Main.created_at it' = Main.created_at it
       ∧ Main.items_db s !! i = Some it
       ∧ Main.items_db s' !! i = Some it'
       ∧ (∀ j, j ≠ i → Main.items_db s' !! j = Main.items_db s !! j)
       ∧ length (Main.items_db s') = length (Main.items_db s)
       ∧ Main.next_id s' = Main.next_id s)
  ∧ (∀ s note_id note n,
       Notes.get_note note_id s = (Returns n, s) →
       ∃ i n' s',
         Notes.update_note note_id note s = (Returns n', s')
         ∧ Notes.title n' = default (Notes.title n) (Notes.nu_title note)
         ∧ Notes.content n' = default (Notes.content n) (Notes.nu_content note)
         ∧ Notes.tags n' = default (Notes.tags n) (Notes.nu_tags note)
         ∧ Notes.id n' = Notes.id n
         ∧ Notes.created_at n' = Notes.created_at n
         ∧ Notes.notes_db s !! i = Some n
         ∧ Notes.notes_db s' !! i = Some n'
         ∧ (∀ j, j ≠ i → Notes.notes_db s' !! j = Notes.notes_db s !! j)
         ∧ length (Notes.notes_db s') = length (Notes.notes_db s)
         ∧ Notes.next_id s' = Notes.next_id s).
Proof.
  split.
  - intros s item_id item it [i Hf]%get_item_returns.
    destruct (Keyed.find_at _ _ _ _ _ Hf) as [Hi _].
    eexists i, _, _. split; [by apply update_item_found|]. cbn.
    split_and!; try done.
    + apply list_lookup_insert_eq. by eapply lookup_lt_Some.
    + intros j Hj. by apply list_lookup_insert_ne.
    + apply length_insert.
  - intros s note_id note n [i Hf]%get_note_returns.
    destruct (Keyed.find_at _ _ _ _ _ Hf) as [Hi _].
    eexists i, _, _. split; [by apply update_note_found|]. cbn.
    split_and!; try done.
    + apply list_lookup_insert_eq. by eapply lookup_lt_Some.
    + intros j Hj. by apply list_lookup_insert_ne.
    + apply length_insert.
Qed.

(** The frame of an update on the sample stores: a new price for item 1, a
    new title for note 1. *)
Lemma update_overwrites_present_fields_only_witness :
  (Main.get_item 1 two_items = (Returns widget_item, two_items)
   ∧ ∃ it',
       (Main.update_item 1 (Main.mkItemUpdate None None (Some 10%float))
          two_items).1 = Returns it'
       ∧ Main.name it' = "Widget" ∧ Main.description it' = None
       ∧ Main.price it' = 10%float)
  ∧ (Notes.get_note 1 three_notes = (Returns meeting_note, three_notes)
     ∧ ∃ n',
         (Notes.update_note 1 (Notes.mkNoteUpdate (Some "retro") None None)
            three_notes).1 = Returns n'
         ∧ Notes.title n' = "retro"
         ∧ Notes.content n' = "agenda for Monday"
         ∧ Notes.tags n' = ["work"; "urgent"]).
Proof.
  split; (split; [reflexivity|]).
  - destruct (proj1 update_overwrites_present_fields_only two_items 1
                (Main.mkItemUpdate None None (Some 10%float)) widget_item
                eq_refl)
      as (i & it' & s' & Hu & Hname & Hdesc & Hprice & _).
    exists it'. rewrite Hu.
    split_and!; [reflexivity|exact Hname|exact Hdesc|exact Hprice].
  - destruct (proj2 update_overwrites_present_fields_only three_notes 1
                (Notes.mkNoteUpdate (Some "retro") None None) meeting_note
                eq_refl)
      as (i & n' & s' & Hu & Htitle & Hcontent & Htags & _).
    exists n'. rewrite Hu.
    split_and!; [reflexivity|exact Htitle|exact Hcontent|exact Htags].
Defined.

(** C4: with a non-empty [tag], the listing keeps exactly the notes for
    which the lower-cased [tag] equals the lower-cased form of some element
    of the note's tags, a whole tag and not a part of one: of what the same
    request without [tag] lists, in the same order.  So [tag="work"] passes
    over the note tagged ["homework"], and [tag="Work"] keeps the note tagged
    ["work"; "urgent"]. *)
Theorem tag_filter_compares_whole_tags :
  (∀ lower s tag,
     tag ≠ "" →
     (∀ n, Notes.tag_matches lower tag n = true ↔
           ∃ t, t ∈ Notes.tags n ∧ lower t = lower tag)
     ∧ Notes.get_notes lower None (Some tag) s
       = (Returns (List.filter (Notes.tag_matches lower tag)
                     (Notes.notes_db s)), s)
     ∧ ∀ search,
         ∃ listed,
           Notes.get_notes lower search None s = (Returns listed, s)
           ∧ Notes.get_notes lower search (Some tag) s
             = (Returns (List.filter (Notes.tag_matches lower tag) listed),
                s))
  ∧ Notes.tag_matches Notes.ascii_lower "work" essay_note = false
  ∧ Notes.tag_matches Notes.ascii_lower "Work" meeting_note = true
  ∧ Notes.get_notes Notes.ascii_lower None (Some "Work") three_notes
    = (Returns [meeting_note], three_notes)
  ∧ Notes.get_notes Notes.ascii_lower None (Some "work") three_notes
    = (Returns [meeting_note], three_notes).
Proof.
  split_and!; try reflexivity.
  intros lower s tag Htag%truthy_true. split_and!.
  - intros n. apply tag_matches_spec.
  - rewrite get_notes_eq. cbn. by rewrite Htag.
  - intros search. eexists. split; [apply get_notes_eq|].
    rewrite get_notes_eq. cbn. by rewrite Htag.
Qed.

(** The tag filter on the sample notes, for [tag="Urgent"]. *)
Lemma tag_filter_compares_whole_tags_witness :
  "Urgent" ≠ ""
  ∧ Notes.get_notes Notes.ascii_lower None (Some "Urgent") three_notes
    = (Returns (List.filter (Notes.tag_matches Notes.ascii_lower "Urgent")
                  (Notes.notes_db three_notes)), three_notes).
Proof.
  assert ("Urgent" ≠ "") as Hne by discriminate.
  split; [exact Hne|].
  apply (proj1 tag_filter_compares_whole_tags Notes.ascii_lower three_notes
           "Urgent" Hne).
Defined.

(** C5: with a non-empty [search], the listing is the notes, in the order
    of the store, for which the lower-cased [search] occurs as a contiguous
    substring in the lower-cased title or in the lower-cased content.  So
    [search="Meeting"] keeps the note titled "team meeting notes" only. *)
Theorem search_filter_is_substring_match :
  (∀ lower s search,
     search ≠ "" →
     (∀ n, Notes.search_matches lower search n = true ↔
           (∃ pre post,
              lower (Notes.title n) = pre +:+ lower search +:+ post)
           ∨ (∃ pre post,
                lower (Notes.content n) = pre +:+ lower search +:+ post))
     ∧ Notes.get_notes lower (Some search) None s
       = (Returns (List.filter (Notes.search_matches lower search)
                     (Notes.notes_db s)), s))
  ∧ Notes.get_notes Notes.ascii_lower (Some "Meeting") None three_notes
    = (Returns [meeting_note], three_notes)
  ∧ Notes.get_notes Notes.ascii_lower (Some "FRI") None three_notes
    = (Returns [essay_note], three_notes).
Proof.
  split_and!; try reflexivity.
  intros lower s search Hs%truthy_true. split.
  - intros n. apply search_matches_spec.
  - rewrite get_notes_eq. cbn. by rewrite Hs.
Qed.

(** The search filter on the sample notes, for [search="pie"]. *)
Lemma search_filter_is_substring_match_witness :
  "pie" ≠ ""
  ∧ Notes.get_notes Notes.ascii_lower (Some "pie") None three_notes
    = (Returns (List.filter (Notes.search_matches Notes.ascii_lower "pie")
                  (Notes.notes_db three_notes)), three_notes).
Proof.
  assert ("pie" ≠ "") as Hne by discriminate.
  split; [exact Hne|].
  apply (proj1 search_filter_is_substring_match Notes.ascii_lower three_notes
           "pie" Hne).
Defined.

(** C6, as the code has it: with a [search] and a non-empty [tag] given
    together, the listing is the notes of the store, in order, that satisfy
    both conditions (an empty [search] filters nothing, which is the search
    condition when lower-casing the empty string gives the empty string);
    taking the two [if] statements in the other order gives the same list;
    with neither parameter the listing is the whole store; and with a
    non-empty [search] and an empty [tag] no tag filter is applied, the
    listing being the notes that satisfy the search condition. *)
Theorem both_filters_are_a_conjunction :
  (∀ lower s search tag,
     tag ≠ "" → (search = "" → lower "" = "") →
     Notes.get_notes lower (Some search) (Some tag) s
     = (Returns
          (List.filter
             (λ n, Notes.search_matches lower search n
                   && Notes.tag_matches lower tag n)
             (Notes.notes_db s)), s))
  ∧ (∀ lower search tag l,
       Notes.apply_tag lower tag (Notes.apply_search lower search l)
       = Notes.apply_search lower search (Notes.apply_tag lower tag l))
  ∧ (∀ lower s,
       Notes.get_notes lower None None s = (Returns (Notes.notes_db s), s))
  ∧ (∀ lower s search,
       search ≠ "" →
       Notes.get_notes lower (Some search) (Some "") s
       = (Returns
            (List.filter (Notes.search_matches lower search)
               (Notes.notes_db s)), s)).
Proof.
  split_and!.
  - intros lower s search tag Htag%truthy_true Hlow.
    rewrite get_notes_eq. cbn. rewrite Htag. do 2 f_equal.
    destruct (Notes.truthy search) eqn:Hs.
    + apply filter_both.
    + assert (search = "") as Heq by by destruct search.
      apply List.filter_ext. intros n. unfold Notes.search_matches.
      subst search. by rewrite (Hlow eq_refl), str_in_empty.
  - intros lower search tag l. apply apply_tag_search_swap.
  - intros lower s. apply get_notes_eq.
  - intros lower s search Hs%truthy_true.
    rewrite get_notes_eq. cbn. by rewrite Hs.
Qed.

(** Both parameters on the sample notes.  With [search="ES"] and
    [tag="WORK"] both filters run and each removes a note: the search
    passes over note 3, the tag over note 2, and note 1 is what is left.
    Then an empty [search] with [tag="Work"], and [search="apple"] with an
    empty [tag]. *)
Lemma both_filters_are_a_conjunction_witness :
  ("WORK" ≠ ""
   ∧ ("ES" = "" → Notes.ascii_lower "" = "")
   ∧ Notes.get_notes Notes.ascii_lower (Some "ES") (Some "WORK") three_notes
     = (Returns
          (List.filter
             (λ n, Notes.search_matches Notes.ascii_lower "ES" n
                   && Notes.tag_matches Notes.ascii_lower "WORK" n)
             (Notes.notes_db three_notes)), three_notes)
   ∧ Notes.get_notes Notes.ascii_lower (Some "ES") (Some "WORK") three_notes
     = (Returns [meeting_note], three_notes)
   ∧ Notes.get_notes Notes.ascii_lower (Some "ES") None three_notes
     = (Returns [meeting_note; essay_note], three_notes)
   ∧ Notes.get_notes Notes.ascii_lower None (Some "WORK") three_notes
     = (Returns [meeting_note], three_notes))
  ∧ ("Work" ≠ ""
     ∧ ("" = "" → Notes.ascii_lower "" = "")
     ∧ Notes.get_notes Notes.ascii_lower (Some "") (Some "Work") three_notes
       = (Returns
            (List.filter
               (λ n, Notes.search_matches Notes.ascii_lower "" n
                     && Notes.tag_matches Notes.ascii_lower "Work" n)
               (Notes.notes_db three_notes)), three_notes))
  ∧ ("apple" ≠ ""
     ∧ Notes.get_notes Notes.ascii_lower (Some "apple") (Some "") three_notes
       = (Returns
            (List.filter (Notes.search_matches Notes.ascii_lower "apple")
               (Notes.notes_db three_notes)), three_notes)).
Proof.
  assert ("WORK" ≠ "") as HWORK by discriminate.
  assert ("ES" = "" → Notes.ascii_lower "" = "") as HES by discriminate.
  assert ("Work" ≠ "") as HWork by discriminate.
  assert ("" = "" → Notes.ascii_lower "" = "") as Hlow
    by (intros _; reflexivity).
  assert ("apple" ≠ "") as Happle by discriminate.
  pose proof (proj1 both_filters_are_a_conjunction Notes.ascii_lower
                three_notes "ES" "WORK" HWORK HES) as Hboth.
  split_and!.
  - exact HWORK.
  - exact HES.
  - exact Hboth.
  - rewrite Hboth. reflexivity.
  - reflexivity.
  - reflexivity.
  - exact HWork.
  - exact Hlow.
  - apply (proj1 both_filters_are_a_conjunction Notes.ascii_lower three_notes
             "" "Work" HWork Hlow).
  - exact Happle.
  - apply (proj2 (proj2 (proj2 both_filters_are_a_conjunction))
             Notes.ascii_lower three_notes "apple" Happle).
Defined.

(** C6 as the specification words it fails: with [search="apple"] and an
    empty [tag] given together, the listing keeps the untagged note 3, which
    the search condition holds for and the tag condition does not, so the
    listing is not the notes that satisfy both. *)
Lemma empty_tag_is_no_condition :
  Notes.get_notes Notes.ascii_lower (Some "apple") (Some "") three_notes
  = (Returns [scratch_note], three_notes)
  ∧ Notes.search_matches Notes.ascii_lower "apple" scratch_note = true
  ∧ Notes.tag_matches Notes.ascii_lower "" scratch_note = false
  ∧ List.filter
      (λ n, Notes.search_matches Notes.ascii_lower "apple" n
            && Notes.tag_matches Notes.ascii_lower "" n)
      (Notes.notes_db three_notes) = [].
Proof. split_and!; reflexivity. Qed.

(** C7: for an id the store has a record of, an update whose payload has
    every field absent succeeds, returns the record with that id as [get]
    returns it, and leaves the collection and the counter as they were.  For
    both services. *)
Theorem empty_update_changes_nothing :
  (∀ s item_id,
     item_id ∈ Main.ids s →
     ∃ it,
       Main.update_item item_id (Main.mkItemUpdate None None None) s
       = (Returns it, s)
       ∧ Main.get_item item_id s = (Returns it, s)
       ∧ it ∈ Main.items_db s ∧ Main.id it = item_id)
  ∧ (∀ s note_id,
       note_id ∈ Notes.ids s →
       ∃ n,
         Notes.update_note note_id (Notes.mkNoteUpdate None None None) s
         = (Returns n, s)
         ∧ Notes.get_note note_id s = (Returns n, s)
         ∧ n ∈ Notes.notes_db s ∧ Notes.id n = note_id).
Proof.
  split.
  - intros s item_id (i & it & Hf)%Keyed.find_present. exists it.
    destruct (Keyed.find_at _ _ _ _ _ Hf) as [Hi Hid].
    rewrite (update_item_found _ _ _ _ _ Hf), (get_item_found _ _ _ _ Hf).
    assert (Main.merged (Main.mkItemUpdate None None None) it = it) as ->
      by by destruct it.
    rewrite list_insert_id by done. destruct s.
    split_and!; [done..| |done]. by eapply list_elem_of_lookup_2.
  - intros s note_id (i & n & Hf)%Keyed.find_present. exists n.
    destruct (Keyed.find_at _ _ _ _ _ Hf) as [Hi Hid].
    rewrite (update_note_found _ _ _ _ _ Hf), (get_note_found _ _ _ _ Hf).
    assert (Notes.merged (Notes.mkNoteUpdate None None None) n = n) as ->
      by by destruct n.
    rewrite list_insert_id by done. destruct s.
    split_and!; [done..| |done]. by eapply list_elem_of_lookup_2.
Qed.

(** The empty update on the sample stores, for item 2 and note 3. *)
Lemma empty_update_changes_nothing_witness :
  (2 ∈ Main.ids two_items
   ∧ ∃ it,
       Main.update_item 2 (Main.mkItemUpdate None None None) two_items
       = (Returns it, two_items)
       ∧ Main.get_item 2 two_items = (Returns it, two_items)
       ∧ it ∈ Main.items_db two_items ∧ Main.id it = 2)
  ∧ (3 ∈ Notes.ids three_notes
     ∧ ∃ n,
         Notes.update_note 3 (Notes.mkNoteUpdate None None None) three_notes
         = (Returns n, three_notes)
         ∧ Notes.get_note 3 three_notes = (Returns n, three_notes)
         ∧ n ∈ Notes.notes_db three_notes ∧ Notes.id n = 3).
Proof.
  assert (2 ∈ Main.ids two_items) as Hitem by compute_done.
  assert (3 ∈ Notes.ids three_notes) as Hnote by compute_done.
  split; (split; [assumption|]).
  - apply (proj1 empty_update_changes_nothing two_items 2 Hitem).
  - apply (proj2 empty_update_changes_nothing three_notes 3 Hnote).
Defined.

(** C8: for an id the store has no record of, get, update and delete of
    both services raise the 404 [HTTPException] with the detail
    "<Entity> not found" and leave the collection and the counter as they
    were; and a route of the store that fails at all fails in this way. *)
Theorem missing_id_is_not_found :
  (∀ s item_id,
     item_id ∉ Main.ids s →
     Main.get_item item_id s
     = (Raises (HTTPException 404 "Item not found"), s)
     ∧ (∀ item,
          Main.update_item item_id item s
          = (Raises (HTTPException 404 "Item not found"), s))
     ∧ Main.delete_item item_id s
       = (Raises (HTTPException 404 "Item not found"), s))
  ∧ (∀ s note_id,
       note_id ∉ Notes.ids s →
       Notes.get_note note_id s
       = (Raises (HTTPException 404 "Note not found"), s)
       ∧ (∀ note,
            Notes.update_note note_id note s
            = (Raises (HTTPException 404 "Note not found"), s))
       ∧ Notes.delete_note note_id s
         = (Raises (HTTPException 404 "Note not found"), s))
  ∧ (∀ r s e,
       (Main.serve r s).1 = Raises e →
       e = HTTPException 404 "Item not found" ∧ (Main.serve r s).2 = s
       ∧ ∃ item_id, (item_id ∉ Main.ids s)
           ∧ (r = Main.GET_item item_id
              ∨ (∃ item, r = Main.PUT_item item_id item)
              ∨ r = Main.DELETE_item item_id))
  ∧ (∀ lower r s e,
       (Notes.serve lower r s).1 = Raises e →
       e = HTTPException 404 "Note not found" ∧ (Notes.serve lower r s).2 = s
       ∧ ∃ note_id, (note_id ∉ Notes.ids s)
           ∧ (r = Notes.GET_note note_id
              ∨ (∃ note, r = Notes.PUT_note note_id note)
              ∨ r = Notes.DELETE_note note_id)).
Proof.
  split_and!.
  - intros s item_id Hf%Keyed.find_missing. split_and!.
    + by apply get_item_missing.
    + intros item. by apply update_item_missing.
    + by apply delete_item_missing.
  - intros s note_id Hf%Keyed.find_missing. split_and!.
    + by apply get_note_missing.
    + intros note. by apply update_note_missing.
    + by apply delete_note_missing.
  - intros r s e He. by eapply items_step_raises; [apply items_serve_step|].
  - intros lower r s e He.
    by eapply notes_step_raises; [apply notes_serve_step|].
Qed.

(** Ids the sample stores have no record of: item 9999 and note 0. *)
Lemma missing_id_is_not_found_witness :
  ((9999 ∉ Main.ids two_items)
   ∧ Main.get_item 9999 two_items
     = (Raises (HTTPException 404 "Item not found"), two_items)
   ∧ Main.delete_item 9999 two_items
     = (Raises (HTTPException 404 "Item not found"), two_items))
  ∧ ((0 ∉ Notes.ids three_notes)
     ∧ Notes.get_note 0 three_notes
       = (Raises (HTTPException 404 "Note not found"), three_notes)
     ∧ Notes.delete_note 0 three_notes
       = (Raises (HTTPException 404 "Note not found"), three_notes)).
Proof.
  assert (9999 ∉ Main.ids two_items) as Hitem by compute_done.
  assert (0 ∉ Notes.ids three_notes) as Hnote by compute_done.
  split; (split; [assumption|]).
  - destruct (proj1 missing_id_is_not_found two_items 9999 Hitem)
      as (Hget & _ & Hdel).
    split; [exact Hget|exact Hdel].
  - destruct (proj1 (proj2 missing_id_is_not_found) three_notes 0 Hnote)
      as (Hget & _ & Hdel).
    split; [exact Hget|exact Hdel].
Defined.

(** C9: in a state the service can be in that has a record with id [k],
    deleting [k] succeeds; the listing that follows is the records of the
    store whose id is not [k], in the order they had, so none of them has id
    [k]; and no create of any run of requests that follows hands out [k].
    For both services, and for the notes listing under every query. *)
Theorem deleted_id_never_comes_back :
  (∀ s k,
     Main.reachable s → k ∈ Main.ids s →
     ∃ text s',
       Main.delete_item k s = (Returns text, s')
       ∧ Main.get_items s'
         = (Returns (filter (λ it, Main.id it ≠ k) (Main.items_db s)), s')
       ∧ (∀ it, it ∈ Main.items_db s' → Main.id it ≠ k)
       ∧ (∀ reqs, k ∉ Main.created_ids (Main.run reqs s').1))
  ∧ (∀ lower s k,
       Notes.reachable lower s → k ∈ Notes.ids s →
       ∃ text s',
         Notes.delete_note k s = (Returns text, s')
         ∧ Notes.get_notes lower None None s'
           = (Returns (filter (λ n, Notes.id n ≠ k) (Notes.notes_db s)), s')
         ∧ (∀ search tag listed n,
              Notes.get_notes lower search tag s' = (Returns listed, s') →
              n ∈ listed → Notes.id n ≠ k)
         ∧ (∀ reqs, k ∉ Notes.created_ids (Notes.run lower reqs s').1)).
Proof.
  split.
  - intros s k Hok%items_reachable_ok Hk.
    destruct (Keyed.find_present _ _ _ Hk) as (i & it & Hf).
    destruct Hok as (Hnd & Hlt & Hpos).
    eexists _, _. split; [apply (delete_item_found _ _ _ _ Hf)|].
    rewrite (Keyed.delete_found _ _ _ _ _ Hnd Hf). split_and!.
    + reflexivity.
    + cbn. intros x Hx. by apply list_elem_of_filter in Hx as [? _].
    + intros reqs. destruct (items_run_created reqs
        (Main.mkState (filter (λ y, Main.id y ≠ k) (Main.items_db s))
           (Main.next_id s))) as [-> _].
      cbn. rewrite elem_of_seqZ. rewrite Forall_forall in Hlt.
      specialize (Hlt _ Hk). cbn in Hlt. lia.
  - intros lower s k Hok%notes_reachable_ok Hk.
    destruct (Keyed.find_present _ _ _ Hk) as (i & n & Hf).
    destruct Hok as (Hnd & Hlt & Hpos).
    eexists _, _. split; [apply (delete_note_found _ _ _ _ Hf)|].
    rewrite (Keyed.delete_found _ _ _ _ _ Hnd Hf). split_and!.
    + reflexivity.
    + intros search tag listed x. rewrite get_notes_eq. cbn.
      intros [= <-] Hx.
      eapply elem_of_sublist in Hx; [|apply listing_sublist].
      by apply list_elem_of_filter in Hx as [? _].
    + intros reqs. destruct (notes_run_created lower reqs
        (Notes.mkState (filter (λ y, Notes.id y ≠ k) (Notes.notes_db s))
           (Notes.next_id s))) as [-> _].
      cbn. rewrite elem_of_seqZ. rewrite Forall_forall in Hlt.
      specialize (Hlt _ Hk). cbn in Hlt. lia.
Qed.

(** Deleting item 1 and note 2 of the sample stores, which runs from the
    initial states end in. *)
Lemma deleted_id_never_comes_back_witness :
  (Main.reachable two_items ∧ 1 ∈ Main.ids two_items
   ∧ ∃ text s',
       Main.delete_item 1 two_items = (Returns text, s')
       ∧ Main.get_items s'
         = (Returns (filter (λ it, Main.id it ≠ 1) (Main.items_db two_items)),
            s')
       ∧ (∀ it, it ∈ Main.items_db s' → Main.id it ≠ 1)
       ∧ (∀ reqs, 1 ∉ Main.created_ids (Main.run reqs s').1))
  ∧ (Notes.reachable Notes.ascii_lower three_notes
     ∧ 2 ∈ Notes.ids three_notes
     ∧ ∃ text s',
         Notes.delete_note 2 three_notes = (Returns text, s')
         ∧ Notes.get_notes Notes.ascii_lower None None s'
           = (Returns
                (filter (λ n, Notes.id n ≠ 2) (Notes.notes_db three_notes)),
              s')
         ∧ (∀ search tag listed n,
              Notes.get_notes Notes.ascii_lower search tag s'
              = (Returns listed, s') →
              n ∈ listed → Notes.id n ≠ 2)
         ∧ (∀ reqs,
              2 ∉ Notes.created_ids
                    (Notes.run Notes.ascii_lower reqs s').1)).
Proof.
  assert (Main.reachable two_items) as Hritems
    by (eexists; reflexivity).
  assert (1 ∈ Main.ids two_items) as Hitem by compute_done.
  assert (Notes.reachable Notes.ascii_lower three_notes) as Hrnotes
    by (eexists; reflexivity).
  assert (2 ∈ Notes.ids three_notes) as Hnote by compute_done.
  split; (split; [assumption|]); (split; [assumption|]).
  - apply (proj1 deleted_id_never_comes_back two_items 1 Hritems Hitem).
  - apply (proj2 deleted_id_never_comes_back Notes.ascii_lower three_notes 2
             Hrnotes Hnote).
Defined.

(** C10: a [search] (or a [tag]) equal to the empty string filters nothing:
    the listing is the one the same request gives with that parameter
    absent. *)
Theorem empty_query_string_is_no_query :
  ∀ lower s search tag,
    Notes.get_notes lower (Some "") tag s = Notes.get_notes lower None tag s
    ∧ Notes.get_notes lower search (Some "") s
      = Notes.get_notes lower search None s
    ∧ Notes.get_notes lower (Some "") (Some "") s
      = (Returns (Notes.notes_db s), s).
Proof. intros lower s search tag. by rewrite !get_notes_eq. Qed.

(** The end-to-end example of the specification: create, get, delete, get. *)
Example create_get_delete_get :
  Main.run
    [Main.POST_items widget 0; Main.GET_item 1; Main.DELETE_item 1;
     Main.GET_item 1] Main.init
  = ([(Main.POST_items widget 0, Returns (Main.one_item widget_item));
      (Main.GET_item 1, Returns (Main.one_item widget_item));
      (Main.DELETE_item 1,
       Returns (Main.message "Item 'Widget' deleted successfully"));
      (Main.GET_item 1, Raises (HTTPException 404 "Item not found"))],
     Main.mkState [] 2).
Proof. reflexivity. Qed.

(** ** Further properties of the two services *)

(** X1: in every state a run of requests from the initial state ends in,
    the ids increase strictly along the collection (insertion order is id
    order), they lie between 1 and the counter, and no two positions hold
    the same id.  For both services. *)
Theorem store_is_in_id_order :
  (∀ s,
     Main.reachable s →
     StronglySorted Z.lt (Main.ids s)
     ∧ Forall (λ k, 1 ≤ k < Main.next_id s) (Main.ids s)
     ∧ (∀ i j a b,
          Main.items_db s !! i = Some a → Main.items_db s !! j = Some b →
          Main.id a = Main.id b → i = j))
  ∧ (∀ lower s,
       Notes.reachable lower s →
       StronglySorted Z.lt (Notes.ids s)
       ∧ Forall (λ k, 1 ≤ k < Notes.next_id s) (Notes.ids s)
       ∧ (∀ i j a b,
            Notes.notes_db s !! i = Some a → Notes.notes_db s !! j = Some b →
            Notes.id a = Notes.id b → i = j)).
Proof.
  split.
  - intros s Hs%Sorted.items_reachable_sorted.
    by apply Sorted.store_sorted_facts.
  - intros lower s Hs%Sorted.notes_reachable_sorted.
    by apply Sorted.store_sorted_facts.
Qed.

(** The order of the ids in the sample stores. *)
Lemma store_is_in_id_order_witness :
  (Main.reachable two_items
   ∧ StronglySorted Z.lt (Main.ids two_items)
   ∧ Forall (λ k, 1 ≤ k < 3) (Main.ids two_items))
  ∧ (Notes.reachable Notes.ascii_lower three_notes
     ∧ StronglySorted Z.lt (Notes.ids three_notes)
     ∧ Forall (λ k, 1 ≤ k < 4) (Notes.ids three_notes)).
Proof.
  assert (Main.reachable two_items) as Hitems by (eexists; reflexivity).
  assert (Notes.reachable Notes.ascii_lower three_notes) as Hnotes
    by (eexists; reflexivity).
  split; (split; [assumption|]).
  - destruct (proj1 store_is_in_id_order two_items Hitems) as (Hs & Hb & _).
    split; [exact Hs|exact Hb].
  - destruct (proj2 store_is_in_id_order Notes.ascii_lower three_notes Hnotes)
      as (Hs & Hb & _).
    split; [exact Hs|exact Hb].
Defined.

(** X2: in a state the service can be in, a create never fails; the record
    it returns has the counter as id, the fields of the payload (for a note
    the tags given, or no tags when they are absent or null) and the clock
    reading; the collection is the old one with that record at the end, the
    counter is one more, and a get of the new id returns the record.  For
    both services. *)
Theorem created_record_is_stored_and_found :
  (∀ s item now,
     Main.reachable s →
     ∃ it s',
       Main.create_item item now s = (Returns it, s')
       ∧ it = Main.mkItem (Main.next_id s) (Main.ic_name item)
                (Main.ic_description item) (Main.ic_price item) now
       ∧ Main.items_db s' = Main.items_db s ++ [it]
       ∧ Main.next_id s' = Main.next_id s + 1
       ∧ Main.get_item (Main.id it) s' = (Returns it, s'))
  ∧ (∀ lower s note now,
       Notes.reachable lower s →
       ∃ n s',
         Notes.create_note note now s = (Returns n, s')
         ∧ n = Notes.mkNote (Notes.next_id s) (Notes.nc_title note)
                 (Notes.nc_content note) (default [] (Notes.nc_tags note)) now
         ∧ Notes.notes_db s' = Notes.notes_db s ++ [n]
         ∧ Notes.next_id s' = Notes.next_id s + 1
         ∧ Notes.get_note (Notes.id n) s' = (Returns n, s')).
Proof.
  split.
  - intros s item now (_ & Hlt & _)%items_reachable_ok.
    eexists _, _. split; [apply create_item_eq|]. cbn.
    split_and!; try done.
    apply (get_item_found _ _ (length (Main.items_db s))). cbn.
    rewrite (Frames.find_app_new Main.id).
    assert (list_find (λ x, Main.id x = Main.next_id s) (Main.items_db s)
            = None) as ->.
    { apply Keyed.find_missing. intros Hk.
      rewrite Forall_forall in Hlt. specialize (Hlt _ Hk). lia. }
    cbn. by destruct (decide (Main.next_id s = Main.next_id s)).
  - intros lower s note now (_ & Hlt & _)%notes_reachable_ok.
    eexists _, _. split; [apply create_note_eq|]. cbn.
    split_and!; try done.
    { f_equal. by destruct (Notes.nc_tags note) as [[|? ?]|]. }
    apply (get_note_found _ _ (length (Notes.notes_db s))). cbn.
    rewrite (Frames.find_app_new Notes.id).
    assert (list_find (λ x, Notes.id x = Notes.next_id s) (Notes.notes_db s)
            = None) as ->.
    { apply Keyed.find_missing. intros Hk.
      rewrite Forall_forall in Hlt. specialize (Hlt _ Hk). lia. }
    cbn. by destruct (decide (Notes.next_id s = Notes.next_id s)).
Qed.

(** A create on the sample stores: item 3 and note 4. *)
Lemma created_record_is_stored_and_found_witness :
  (Main.reachable two_items
   ∧ ∃ it s',
       Main.create_item gadget 5 two_items = (Returns it, s')
       ∧ Main.id it = 3
       ∧ Main.get_item 3 s' = (Returns it, s'))
  ∧ (Notes.reachable Notes.ascii_lower three_notes
     ∧ ∃ n s',
         Notes.create_note scratch 5 three_notes = (Returns n, s')
         ∧ Notes.id n = 4 ∧ Notes.tags n = []
         ∧ Notes.get_note 4 s' = (Returns n, s')).
Proof.
  assert (Main.reachable two_items) as Hitems by (eexists; reflexivity).
  assert (Notes.reachable Notes.ascii_lower three_notes) as Hnotes
    by (eexists; reflexivity).
  split; (split; [assumption|]).
  - destruct (proj1 created_record_is_stored_and_found two_items gadget 5
                Hitems) as (it & s' & Hc & -> & _ & _ & Hget).
    eexists. exists s'. split_and!; [exact Hc|reflexivity|exact Hget].
  - destruct (proj2 created_record_is_stored_and_found Notes.ascii_lower
                three_notes scratch 5 Hnotes)
      as (n & s' & Hc & -> & _ & _ & Hget).
    eexists. exists s'.
    split_and!; [exact Hc|reflexivity|reflexivity|exact Hget].
Defined.

(** X3: in a state the service can be in that has a record with id [k],
    once [k] is deleted a get, an update and a second delete of [k] all
    raise the 404, and leave the state as the first delete left it.  For
    both services. *)
Theorem deleted_id_is_not_found_afterwards :
  (∀ s k,
     Main.reachable s → k ∈ Main.ids s →
     ∃ text s',
       Main.delete_item k s = (Returns text, s')
       ∧ Main.get_item k s'
         = (Raises (HTTPException 404 "Item not found"), s')
       ∧ (∀ item,
            Main.update_item k item s'
            = (Raises (HTTPException 404 "Item not found"), s'))
       ∧ Main.delete_item k s'
         = (Raises (HTTPException 404 "Item not found"), s'))
  ∧ (∀ lower s k,
       Notes.reachable lower s → k ∈ Notes.ids s →
       ∃ text s',
         Notes.delete_note k s = (Returns text, s')
         ∧ Notes.get_note k s'
           = (Raises (HTTPException 404 "Note not found"), s')
         ∧ (∀ note,
              Notes.update_note k note s'
              = (Raises (HTTPException 404 "Note not found"), s'))
         ∧ Notes.delete_note k s'
           = (Raises (HTTPException 404 "Note not found"), s')).
Proof.
  split.
  - intros s k (Hnd & _)%items_reachable_ok Hk.
    destruct (Keyed.find_present _ _ _ Hk) as (i & it & Hf).
    eexists _, _. split; [apply (delete_item_found _ _ _ _ Hf)|].
    assert (list_find (λ x, Main.id x = k) (delete i (Main.items_db s))
            = None) as Hgone.
    { apply Keyed.find_missing. by eapply Keyed.deleted_absent. }
    split_and!.
    + by apply get_item_missing.
    + intros item. by apply update_item_missing.
    + by apply delete_item_missing.
  - intros lower s k (Hnd & _)%notes_reachable_ok Hk.
    destruct (Keyed.find_present _ _ _ Hk) as (i & n & Hf).
    eexists _, _. split; [apply (delete_note_found _ _ _ _ Hf)|].
    assert (list_find (λ x, Notes.id x = k) (delete i (Notes.notes_db s))
            = None) as Hgone.
    { apply Keyed.find_missing. by eapply Keyed.deleted_absent. }
    split_and!.
    + by apply get_note_missing.
    + intros note. by apply update_note_missing.
    + by apply delete_note_missing.
Qed.

(** Deleting item 2 and note 1 of the sample stores. *)
Lemma deleted_id_is_not_found_afterwards_witness :
  (Main.reachable two_items ∧ 2 ∈ Main.ids two_items
   ∧ ∃ text s',
       Main.delete_item 2 two_items = (Returns text, s')
       ∧ Main.get_item 2 s'
         = (Raises (HTTPException 404 "Item not found"), s'))
  ∧ (Notes.reachable Notes.ascii_lower three_notes
     ∧ 1 ∈ Notes.ids three_notes
     ∧ ∃ text s',
         Notes.delete_note 1 three_notes = (Returns text, s')
         ∧ Notes.get_note 1 s'
           = (Raises (HTTPException 404 "Note not found"), s')).
Proof.
  assert (Main.reachable two_items) as Hitems by (eexists; reflexivity).
  assert (2 ∈ Main.ids two_items) as Hitem by compute_done.
  assert (Notes.reachable Notes.ascii_lower three_notes) as Hnotes
    by (eexists; reflexivity).
  assert (1 ∈ Notes.ids three_notes) as Hnote by compute_done.
  split; (split; [assumption|]); (split; [assumption|]).
  - destruct (proj1 deleted_id_is_not_found_afterwards two_items 2 Hitems
                Hitem) as (text & s' & Hd & Hg & _).
    exists text, s'. split; [exact Hd|exact Hg].
  - destruct (proj2 deleted_id_is_not_found_afterwards Notes.ascii_lower
                three_notes 1 Hnotes Hnote) as (text & s' & Hd & Hg & _).
    exists text, s'. split; [exact Hd|exact Hg].
Defined.

(** X4: deleting [k] changes nothing for another id [j]: a get of [j]
    after the delete returns what it returned before, the record or the
    404, whether or not the delete found [k].  In every state, for both
    services. *)
Theorem delete_leaves_other_ids :
  (∀ s k j,
     j ≠ k →
     (Main.get_item j (Main.delete_item k s).2).1 = (Main.get_item j s).1)
  ∧ (∀ s k j,
       j ≠ k →
       (Notes.get_note j (Notes.delete_note k s).2).1
       = (Notes.get_note j s).1).
Proof.
  split.
  - intros s k j Hjk. rewrite Effects.delete_item_eq.
    destruct (list_find _ _) as [[i it]|] eqn:Hf; [|done]. cbn.
    apply Keyed.find_at in Hf as [Hi Hid].
    rewrite !Effects.get_item_outcome. cbn.
    rewrite (Frames.find_delete_other Main.id _ _ it); [done..|congruence].
  - intros s k j Hjk. rewrite Effects.delete_note_eq.
    destruct (list_find _ _) as [[i n]|] eqn:Hf; [|done]. cbn.
    apply Keyed.find_at in Hf as [Hi Hid].
    rewrite !Effects.get_note_outcome. cbn.
    rewrite (Frames.find_delete_other Notes.id _ _ n); [done..|congruence].
Qed.

(** Item 2 after the delete of item 1, note 3 after the delete of note 2. *)
Lemma delete_leaves_other_ids_witness :
  (2 ≠ 1
   ∧ (Main.get_item 2 (Main.delete_item 1 two_items).2).1
     = (Main.get_item 2 two_items).1)
  ∧ (3 ≠ 2
     ∧ (Notes.get_note 3 (Notes.delete_note 2 three_notes).2).1
       = Returns scratch_note).
Proof.
  assert (2 ≠ 1) as H21 by lia. assert (3 ≠ 2) as H32 by lia.
  split; (split; [assumption|]).
  - apply (proj1 delete_leaves_other_ids two_items 1 2 H21).
  - rewrite (proj2 delete_leaves_other_ids three_notes 2 3 H32).
    reflexivity.
Defined.

(** X5: updating [k] changes nothing for another id [j]: a get of [j]
    after the update returns what it returned before, whatever the payload
    and whether or not the update found [k].  In every state, for both
    services. *)
Theorem update_leaves_other_ids :
  (∀ s k j item,
     j ≠ k →
     (Main.get_item j (Main.update_item k item s).2).1
     = (Main.get_item j s).1)
  ∧ (∀ s k j note,
       j ≠ k →
       (Notes.get_note j (Notes.update_note k note s).2).1
       = (Notes.get_note j s).1).
Proof.
  split.
  - intros s k j item Hjk. rewrite Effects.update_item_eq.
    destruct (list_find _ _) as [[i it]|] eqn:Hf; [|done]. cbn.
    apply Keyed.find_at in Hf as [Hi Hid].
    rewrite !Effects.get_item_outcome. cbn.
    rewrite (Frames.find_insert_other Main.id _ _ it); [done..|congruence|].
    cbn. congruence.
  - intros s k j note Hjk. rewrite Effects.update_note_eq.
    destruct (list_find _ _) as [[i n]|] eqn:Hf; [|done]. cbn.
    apply Keyed.find_at in Hf as [Hi Hid].
    rewrite !Effects.get_note_outcome. cbn.
    rewrite (Frames.find_insert_other Notes.id _ _ n); [done..|congruence|].
    cbn. congruence.
Qed.

(** Item 1 after an update of item 2, note 1 after an update of note 3. *)
Lemma update_leaves_other_ids_witness :
  (1 ≠ 2
   ∧ (Main.get_item 1
        (Main.update_item 2 (Main.mkItemUpdate (Some "Gizmo") None None)
           two_items).2).1
     = Returns widget_item)
  ∧ (1 ≠ 3
     ∧ (Notes.get_note 1
          (Notes.update_note 3 (Notes.mkNoteUpdate None None (Some ["p"]))
             three_notes).2).1
       = Returns meeting_note).
Proof.
  assert (1 ≠ 2) as H12 by lia. assert (1 ≠ 3) as H13 by lia.
  split; (split; [assumption|]).
  - rewrite (proj1 update_leaves_other_ids two_items 2 1
               (Main.mkItemUpdate (Some "Gizmo") None None) H12).
    reflexivity.
  - rewrite (proj2 update_leaves_other_ids three_notes 3 1
               (Notes.mkNoteUpdate None None (Some ["p"])) H13).
    reflexivity.
Defined.

(** X6: a create hides no record: for an id [j] that the store has a
    record of, or that is not the counter, a get of [j] after the create
    returns what it returned before.  In every state, for both services. *)
Theorem create_leaves_other_ids :
  (∀ s j item now,
     j ∈ Main.ids s ∨ j ≠ Main.next_id s →
     (Main.get_item j (Main.create_item item now s).2).1
     = (Main.get_item j s).1)
  ∧ (∀ s j note now,
       j ∈ Notes.ids s ∨ j ≠ Notes.next_id s →
       (Notes.get_note j (Notes.create_note note now s).2).1
       = (Notes.get_note j s).1).
Proof.
  split.
  - intros s j item now Hj. rewrite create_item_eq. cbn.
    rewrite !Effects.get_item_outcome. cbn.
    rewrite (Frames.find_app_new Main.id).
    destruct (list_find _ (Main.items_db s)) as [[i it]|] eqn:Hf; [done|].
    cbn. destruct (decide (Main.next_id s = j)) as [Heq|]; [|done].
    destruct Hj as [Hj|Hj]; [|congruence].
    by apply Keyed.find_missing in Hf.
  - intros s j note now Hj. rewrite create_note_eq. cbn.
    rewrite !Effects.get_note_outcome. cbn.
    rewrite (Frames.find_app_new Notes.id).
    destruct (list_find _ (Notes.notes_db s)) as [[i n]|] eqn:Hf; [done|].
    cbn. destruct (decide (Notes.next_id s = j)) as [Heq|]; [|done].
    destruct Hj as [Hj|Hj]; [|congruence].
    by apply Keyed.find_missing in Hf.
Qed.

(** Item 1 and note 2 of the sample stores after one more create. *)
Lemma create_leaves_other_ids_witness :
  (1 ∈ Main.ids two_items
   ∧ (Main.get_item 1 (Main.create_item gadget 9 two_items).2).1
     = Returns widget_item)
  ∧ (2 ∈ Notes.ids three_notes
     ∧ (Notes.get_note 2 (Notes.create_note meeting 9 three_notes).2).1
       = Returns essay_note).
Proof.
  assert (1 ∈ Main.ids two_items) as Hitem by compute_done.
  assert (2 ∈ Notes.ids three_notes) as Hnote by compute_done.
  split; (split; [assumption|]).
  - rewrite (proj1 create_leaves_other_ids two_items 1 gadget 9
               (or_introl Hitem)).
    reflexivity.
  - rewrite (proj2 create_leaves_other_ids three_notes 2 meeting 9
               (or_introl Hnote)).
    reflexivity.
Defined.

(** X7: two updates of the same id in a row are one update with the second
    payload laid over the first: the same outcome and the same state, in
    every state, found or not.  So repeating an update changes nothing more.
    For both services. *)
Theorem updates_of_one_id_compose :
  (∀ s k first second,
     Main.update_item k second (Main.update_item k first s).2
     = Main.update_item k (Compose.item_updates first second) s)
  ∧ (∀ s k item,
       Main.update_item k item (Main.update_item k item s).2
       = Main.update_item k item s)
  ∧ (∀ s k first second,
       Notes.update_note k second (Notes.update_note k first s).2
       = Notes.update_note k (Compose.note_updates first second) s)
  ∧ (∀ s k note,
       Notes.update_note k note (Notes.update_note k note s).2
       = Notes.update_note k note s).
Proof.
  assert (∀ s k first second,
     Main.update_item k second (Main.update_item k first s).2
     = Main.update_item k (Compose.item_updates first second) s) as Hitems.
  { intros s k first second. rewrite !(Effects.update_item_eq k _ s).
    destruct (list_find _ (Main.items_db s)) as [[i it]|] eqn:Hf; cbn.
    - rewrite Effects.update_item_eq. cbn.
      rewrite (Keyed.find_after_insert Main.id _ _ _ it) by done.
      by rewrite list_insert_insert_eq, Effects.item_updates_merged.
    - rewrite Effects.update_item_eq. by rewrite Hf. }
  assert (∀ s k first second,
     Notes.update_note k second (Notes.update_note k first s).2
     = Notes.update_note k (Compose.note_updates first second) s) as Hnotes.
  { intros s k first second. rewrite !(Effects.update_note_eq k _ s).
    destruct (list_find _ (Notes.notes_db s)) as [[i n]|] eqn:Hf; cbn.
    - rewrite Effects.update_note_eq. cbn.
      rewrite (Keyed.find_after_insert Notes.id _ _ _ n) by done.
      by rewrite list_insert_insert_eq, Effects.note_updates_merged.
    - rewrite Effects.update_note_eq. by rewrite Hf. }
  split_and!; [done| |done|].
  - intros s k item. rewrite Hitems. f_equal.
    by destruct item as [[?|] [?|] [?|]].
  - intros s k note. rewrite Hnotes. f_equal.
    by destruct note as [[?|] [?|] [?|]].
Qed.

(** Two updates of item 1 in a row: the name of the first, the price of the
    second. *)
Example rename_then_reprice :
  (Main.update_item 1 (Main.mkItemUpdate None None (Some 10%float))
     (Main.update_item 1 (Main.mkItemUpdate (Some "Gizmo") None None)
        two_items).2).1
  = Returns (Main.mkItem 1 "Gizmo" None 10%float 0).
Proof. reflexivity. Qed.

(** X8: updates of two different ids can be made in either order: the
    state after both is the same, and each returns what it returns when made
    alone.  In every state, found or not, for both services. *)
Theorem updates_of_two_ids_commute :
  (∀ s j k first second,
     j ≠ k →
     (Main.update_item j second (Main.update_item k first s).2).2
     = (Main.update_item k first (Main.update_item j second s).2).2
     ∧ (Main.update_item j second (Main.update_item k first s).2).1
       = (Main.update_item j second s).1)
  ∧ (∀ s j k first second,
       j ≠ k →
       (Notes.update_note j second (Notes.update_note k first s).2).2
       = (Notes.update_note k first (Notes.update_note j second s).2).2
       ∧ (Notes.update_note j second (Notes.update_note k first s).2).1
         = (Notes.update_note j second s).1).
Proof.
  split.
  - intros s j k first second Hjk.
    rewrite (Effects.update_item_eq k first s),
      (Effects.update_item_eq j second s).
    destruct (list_find (λ it, Main.id it = k) (Main.items_db s))
      as [[i x]|] eqn:Hk;
      destruct (list_find (λ it, Main.id it = j) (Main.items_db s))
        as [[i' y]|] eqn:Hj; cbn;
      rewrite !Effects.update_item_eq; cbn;
      try (destruct (Keyed.find_at _ _ _ _ _ Hk) as [Hix Hidx]);
      try (destruct (Keyed.find_at _ _ _ _ _ Hj) as [Hiy Hidy]);
      rewrite ?(Frames.find_insert_other Main.id _ _ x _ j Hix)
        by (cbn; congruence);
      rewrite ?(Frames.find_insert_other Main.id _ _ y _ k Hiy)
        by (cbn; congruence);
      rewrite ?Hk, ?Hj; cbn; [|done..].
    split; [|done]. f_equal. apply list_insert_insert_ne.
    intros ->. congruence.
  - intros s j k first second Hjk.
    rewrite (Effects.update_note_eq k first s),
      (Effects.update_note_eq j second s).
    destruct (list_find (λ n, Notes.id n = k) (Notes.notes_db s))
      as [[i x]|] eqn:Hk;
      destruct (list_find (λ n, Notes.id n = j) (Notes.notes_db s))
        as [[i' y]|] eqn:Hj; cbn;
      rewrite !Effects.update_note_eq; cbn;
      try (destruct (Keyed.find_at _ _ _ _ _ Hk) as [Hix Hidx]);
      try (destruct (Keyed.find_at _ _ _ _ _ Hj) as [Hiy Hidy]);
      rewrite ?(Frames.find_insert_other Notes.id _ _ x _ j Hix)
        by (cbn; congruence);
      rewrite ?(Frames.find_insert_other Notes.id _ _ y _ k Hiy)
        by (cbn; congruence);
      rewrite ?Hk, ?Hj; cbn; [|done..].
    split; [|done]. f_equal. apply list_insert_insert_ne.
    intros ->. congruence.
Qed.

(** Updates of items 1 and 2, and of notes 1 and 3, in both orders. *)
Lemma updates_of_two_ids_commute_witness :
  (1 ≠ 2
   ∧ (Main.update_item 1 (Main.mkItemUpdate (Some "Gizmo") None None)
        (Main.update_item 2 (Main.mkItemUpdate None (Some "new") None)
           two_items).2).2
     = (Main.update_item 2 (Main.mkItemUpdate None (Some "new") None)
          (Main.update_item 1 (Main.mkItemUpdate (Some "Gizmo") None None)
             two_items).2).2)
  ∧ (1 ≠ 3
     ∧ (Notes.update_note 1 (Notes.mkNoteUpdate (Some "retro") None None)
          (Notes.update_note 3 (Notes.mkNoteUpdate None None (Some ["p"]))
             three_notes).2).2
       = (Notes.update_note 3 (Notes.mkNoteUpdate None None (Some ["p"]))
            (Notes.update_note 1
               (Notes.mkNoteUpdate (Some "retro") None None)
               three_notes).2).2).
Proof.
  assert (1 ≠ 2) as H12 by lia. assert (1 ≠ 3) as H13 by lia.
  split; (split; [assumption|]).
  - apply (proj1 updates_of_two_ids_commute two_items 1 2
             (Main.mkItemUpdate None (Some "new") None)
             (Main.mkItemUpdate (Some "Gizmo") None None) H12).
  - apply (proj2 updates_of_two_ids_commute three_notes 1 3
             (Notes.mkNoteUpdate None None (Some ["p"]))
             (Notes.mkNoteUpdate (Some "retro") None None) H13).
Defined.

(** X9: whatever the two parameters are, empty strings included, a note is
    in the listing for both exactly when it is in the listing for [search]
    alone and in the listing for [tag] alone; each listing is a subsequence
    of the next wider one and of the store, so a filter only removes notes
    and never reorders them. *)
Theorem listing_for_both_is_the_common_part :
  ∀ lower s search tag,
    ∃ both by_search by_tag,
      Notes.get_notes lower search tag s = (Returns both, s)
      ∧ Notes.get_notes lower search None s = (Returns by_search, s)
      ∧ Notes.get_notes lower None tag s = (Returns by_tag, s)
      ∧ (∀ n, n ∈ both ↔ n ∈ by_search ∧ n ∈ by_tag)
      ∧ both `sublist_of` by_search
      ∧ both `sublist_of` by_tag
      ∧ by_search `sublist_of` Notes.notes_db s
      ∧ by_tag `sublist_of` Notes.notes_db s.
Proof.
  intros lower s search tag. eexists _, _, _.
  split_and!; try apply get_notes_eq.
  - intros n. cbn. rewrite !Listing.listed_iff.
    change (Notes.apply_search lower None (Notes.notes_db s))
      with (Notes.notes_db s).
    change (Notes.apply_tag lower None
              (Notes.apply_search lower search (Notes.notes_db s)))
      with (Notes.apply_search lower search (Notes.notes_db s)).
    rewrite Listing.apply_search_keeps, Listing.apply_tag_keeps,
      !Listing.elem_of_filter_bool.
    tauto.
  - cbn. rewrite (Listing.apply_tag_keeps lower tag). apply filter_sublist.
  - rewrite apply_tag_search_swap. cbn.
    rewrite (Listing.apply_search_keeps lower search). apply filter_sublist.
  - apply listing_sublist.
  - apply listing_sublist.
Qed.

(** X10: the case of a query does not matter: two non-empty [search]
    strings, or two non-empty [tag] strings, that lower-case to the same
    string give the same listing, whatever the other parameter is. *)
Theorem queries_equal_up_to_case_list_the_same :
  ∀ lower s q1 q2 other,
    q1 ≠ "" → q2 ≠ "" → lower q1 = lower q2 →
    Notes.get_notes lower (Some q1) other s
    = Notes.get_notes lower (Some q2) other s
    ∧ Notes.get_notes lower other (Some q1) s
      = Notes.get_notes lower other (Some q2) s.
Proof.
  intros lower s q1 q2 other H1%truthy_true H2%truthy_true Heq.
  rewrite !get_notes_eq. cbn. rewrite H1, H2.
  unfold Notes.search_matches, Notes.tag_matches. by rewrite Heq.
Qed.

(** [search=MEETING] and [search=meeting], [tag=URGENT] and [tag=urgent]. *)
Lemma queries_equal_up_to_case_list_the_same_witness :
  "MEETING" ≠ "" ∧ "meeting" ≠ ""
  ∧ Notes.ascii_lower "MEETING" = Notes.ascii_lower "meeting"
  ∧ Notes.get_notes Notes.ascii_lower (Some "MEETING") (Some "urgent")
      three_notes
    = Notes.get_notes Notes.ascii_lower (Some "meeting") (Some "urgent")
        three_notes.
Proof.
  assert ("MEETING" ≠ "") as H1 by discriminate.
  assert ("meeting" ≠ "") as H2 by discriminate.
  assert (Notes.ascii_lower "MEETING" = Notes.ascii_lower "meeting") as Heq
    by reflexivity.
  split_and!; [assumption..|].
  apply (queries_equal_up_to_case_list_the_same Notes.ascii_lower three_notes
           "MEETING" "meeting" (Some "urgent") H1 H2 Heq).
Defined.

(** X11: a note of the store is found by its own words: searching for its
    whole title, or its whole content, lists it, and so does asking for any
    one of its tags, as long as the query string is not empty. *)
Theorem note_is_found_by_its_own_words :
  ∀ lower s n,
    n ∈ Notes.notes_db s →
    (Notes.title n ≠ "" →
     ∃ listed,
       Notes.get_notes lower (Some (Notes.title n)) None s
       = (Returns listed, s) ∧ n ∈ listed)
    ∧ (Notes.content n ≠ "" →
       ∃ listed,
         Notes.get_notes lower (Some (Notes.content n)) None s
         = (Returns listed, s) ∧ n ∈ listed)
    ∧ (∀ t, t ∈ Notes.tags n → t ≠ "" →
         ∃ listed,
           Notes.get_notes lower None (Some t) s = (Returns listed, s)
           ∧ n ∈ listed).
Proof.
  intros lower s n Hn. split_and!.
  - intros Ht%truthy_true. eexists. split; [apply get_notes_eq|].
    apply Listing.listed_iff. split_and!; [done| |done].
    cbn. rewrite Ht. unfold Notes.search_matches.
    by rewrite Listing.str_in_refl.
  - intros Hc%truthy_true. eexists. split; [apply get_notes_eq|].
    apply Listing.listed_iff. split_and!; [done| |done].
    cbn. rewrite Hc. unfold Notes.search_matches.
    by rewrite Listing.str_in_refl, orb_true_r.
  - intros t Ht Hne%truthy_true. eexists. split; [apply get_notes_eq|].
    apply Listing.listed_iff. split_and!; [done..|].
    cbn. rewrite Hne. apply tag_matches_spec. eauto.
Qed.

(** The essay note of the sample store, by its title and by its tag. *)
Lemma note_is_found_by_its_own_words_witness :
  essay_note ∈ Notes.notes_db three_notes
  ∧ (∃ listed,
       Notes.get_notes Notes.ascii_lower (Some "essay") None three_notes
       = (Returns listed, three_notes) ∧ essay_note ∈ listed)
  ∧ (∃ listed,
       Notes.get_notes Notes.ascii_lower None (Some "homework") three_notes
       = (Returns listed, three_notes) ∧ essay_note ∈ listed).
Proof.
  assert (essay_note ∈ Notes.notes_db three_notes) as Hn.
  { apply list_elem_of_In. right. left. reflexivity. }
  assert ("essay" ≠ "") as Ht by discriminate.
  assert ("homework" ≠ "") as Hg by discriminate.
  assert ("homework" ∈ Notes.tags essay_note) as Hin.
  { apply list_elem_of_In. left. reflexivity. }
  destruct (note_is_found_by_its_own_words Notes.ascii_lower three_notes
              essay_note Hn) as (Htitle & _ & Htags).
  split_and!; [exact Hn|exact (Htitle Ht)|exact (Htags "homework" Hin Hg)].
Defined.

(** X12: after any run of requests from the initial state the counter is
    one more than the number of creates, and the store holds as many records
    as there were creates less the deletes that returned their message; a
    failed request counts for nothing.  For both services. *)
Theorem store_size_counts_creates_and_deletes :
  (∀ reqs,
     Main.next_id (Main.run reqs Main.init).2
     = 1 + Z.of_nat (length (List.filter Main.is_create reqs))
     ∧ Z.of_nat (length (Main.items_db (Main.run reqs Main.init).2))
       = Z.of_nat (length (List.filter Main.is_create reqs))
         - Z.of_nat
             (length (List.filter Compose.item_deleted
                        (Main.run reqs Main.init).1)))
  ∧ (∀ lower reqs,
       Notes.next_id (Notes.run lower reqs Notes.init).2
       = 1 + Z.of_nat (length (List.filter Notes.is_create reqs))
       ∧ Z.of_nat (length (Notes.notes_db (Notes.run lower reqs Notes.init).2))
         = Z.of_nat (length (List.filter Notes.is_create reqs))
           - Z.of_nat
               (length (List.filter Compose.note_deleted
                          (Notes.run lower reqs Notes.init).1))).
Proof.
  split.
  - intros reqs. split.
    + apply (items_run_created reqs Main.init).
    + rewrite Sizes.items_run_length. cbn. lia.
  - intros lower reqs. split.
    + apply (notes_run_created lower reqs Notes.init).
    + rewrite Sizes.notes_run_length. cbn. lia.
Qed.

(** Three creates, a delete that finds its record and one that does not:
    two records, and the counter at 4. *)
Example size_after_creates_and_deletes :
  Main.ids
    (Main.run
       [Main.POST_items widget 0; Main.POST_items gadget 1;
        Main.DELETE_item 1; Main.DELETE_item 1; Main.POST_items widget 2]
       Main.init).2 = [2; 3]
  ∧ Main.next_id
      (Main.run
         [Main.POST_items widget 0; Main.POST_items gadget 1;
          Main.DELETE_item 1; Main.DELETE_item 1; Main.POST_items widget 2]
         Main.init).2 = 4.
Proof. split; reflexivity. Qed.

(** X13: when [get] finds the record [it] for [k], a delete of [k] removes
    that record and no other: it is the record at some index [i], the
    records before [i] stay where they are, those after it move up by one,
    the store is one record shorter and the counter is the same; the items
    message carries the name of [it].  In every state, for both services. *)
Theorem delete_removes_the_record_get_returns :
  (∀ s k it,
     Main.get_item k s = (Returns it, s) →
     ∃ i s',
       Main.delete_item k s
       = (Returns ("Item '" +:+ Main.name it +:+ "' deleted successfully"),
          s')
       ∧ Main.items_db s !! i = Some it
       ∧ (∀ j, (j < i)%nat → Main.items_db s' !! j = Main.items_db s !! j)
       ∧ (∀ j, (i ≤ j)%nat → Main.items_db s' !! j = Main.items_db s !! S j)
       ∧ S (length (Main.items_db s')) = length (Main.items_db s)
       ∧ Main.next_id s' = Main.next_id s)
  ∧ (∀ s k n,
       Notes.get_note k s = (Returns n, s) →
       ∃ i s',
         Notes.delete_note k s = (Returns "Note deleted successfully", s')
         ∧ Notes.notes_db s !! i = Some n
         ∧ (∀ j, (j < i)%nat → Notes.notes_db s' !! j = Notes.notes_db s !! j)
         ∧ (∀ j, (i ≤ j)%nat →
                 Notes.notes_db s' !! j = Notes.notes_db s !! S j)
         ∧ S (length (Notes.notes_db s')) = length (Notes.notes_db s)
         ∧ Notes.next_id s' = Notes.next_id s).
Proof.
  split.
  - intros s k it [i Hf]%get_item_returns.
    destruct (Keyed.find_at _ _ _ _ _ Hf) as [Hi _].
    exists i. eexists. split; [apply (delete_item_found _ _ _ _ Hf)|]. cbn.
    split_and!; [done| | | |done].
    + intros j Hj. by apply list_lookup_delete_lt.
    + intros j Hj. by apply list_lookup_delete_ge.
    + rewrite length_delete by eauto. apply lookup_lt_Some in Hi. lia.
  - intros s k n [i Hf]%get_note_returns.
    destruct (Keyed.find_at _ _ _ _ _ Hf) as [Hi _].
    exists i. eexists. split; [apply (delete_note_found _ _ _ _ Hf)|]. cbn.
    split_and!; [done| | | |done].
    + intros j Hj. by apply list_lookup_delete_lt.
    + intros j Hj. by apply list_lookup_delete_ge.
    + rewrite length_delete by eauto. apply lookup_lt_Some in Hi. lia.
Qed.

(** Deleting item 1 and note 2 of the sample stores. *)
Lemma delete_removes_the_record_get_returns_witness :
  (Main.get_item 1 two_items = (Returns widget_item, two_items)
   ∧ ∃ s',
       Main.delete_item 1 two_items
       = (Returns "Item 'Widget' deleted successfully", s')
       ∧ S (length (Main.items_db s')) = 2%nat)
  ∧ (Notes.get_note 2 three_notes = (Returns essay_note, three_notes)
     ∧ ∃ s',
         Notes.delete_note 2 three_notes
         = (Returns "Note deleted successfully", s')
         ∧ S (length (Notes.notes_db s')) = 3%nat).
Proof.
  split; (split; [reflexivity|]).
  - destruct (proj1 delete_removes_the_record_get_returns two_items 1
                widget_item eq_refl) as (i & s' & Hd & _ & _ & _ & Hlen & _).
    exists s'. split; [exact Hd|exact Hlen].
  - destruct (proj2 delete_removes_the_record_get_returns three_notes 2
                essay_note eq_refl) as (i & s' & Hd & _ & _ & _ & Hlen & _).
    exists s'. split; [exact Hd|exact Hlen].
Defined.
